(** * Token lifecycle and chat-session resolution of the dashboard page

    A shallow embedding of [src/app/dashboard/page.tsx]: the [TokenManager]
    object over [localStorage], the expiry check, the refresh exchange, and
    the chat-id / history / session helpers of the [Dashboard] component.

    The page is asynchronous JavaScript over one shared, mutable store.  A
    function runs without interruption until it reaches an [await] on a
    network call; there it hands the world back to the event loop, and it is
    resumed later with the answer of the backend and with the world as it is
    by then.  The embedding keeps exactly that shape: a computation is a
    finite tree whose inner nodes are the suspension points, one for each
    [await] on the network ([fetch] and [response.json()]).  An [await] on
    one of the page's own functions is resumed within the same turn of the
    event loop, before any other handler can run, and is plain sequencing. *)

From Stdlib Require Import ZArith.
From stdpp Require Import base option strings list gmap.

Local Open Scope string_scope.
Local Open Scope Z_scope.

(** ** Constants and wire types *)

Definition TOKEN_REFRESH_THRESHOLD : Z := 5 * 60.
Definition CHAT_ID_STORAGE_KEY : string := "active_chat_id".

(** [jwt-decode] payload.  [exp] is a NumericDate; it is kept as an integer
    number of seconds, absent when the claim is missing. *)
Record JWTPayload := {
  exp : option Z;
  type : option string
}.

(** Body of the refresh endpoint.  The code tests both token fields before
    use, so a field that is missing from the JSON object is [None]. *)
Record TokenResponse := {
  access_token : option string;
  refresh_token : option string;
  token_type : option string
}.

Record ChatIdResponse := { active_chat_id : string }.

(** History entries are [any] in the source and are passed through. *)
Definition Message : Type := string.

Record ChatHistoryResponse := { history : option (list Message) }.

Record ChatSession := { chat_id : string; title : string }.

Record ChatSessionsResponse := { sessions_field : option (list ChatSession) }.

(** ** JavaScript values used by the page *)

(** Truthiness of a [string | null | undefined]: [null] and the empty string
    are falsy. *)
Definition truthy (v : option string) : bool :=
  match v with
  | Some s => negb (String.eqb s "")
  | None => false
  end.

(** Truthiness of a [number | undefined]: [undefined] and [0] are falsy. *)
Definition truthy_num (v : option Z) : bool :=
  match v with
  | Some n => negb (Z.eqb n 0)
  | None => false
  end.

(** [x || []] on an optional array (an array, even empty, is truthy). *)
Definition or_empty {A} (v : option (list A)) : list A := default [] v.

Inductive JsError :=
| Error (message : string)      (* [new Error(message)] thrown by the page *)
| FetchError                    (* the promise of [fetch] rejects *)
| SyntaxError                   (* the promise of [response.json()] rejects *)
| InvalidTokenError.            (* thrown by [jwtDecode] *)

Inductive outcome (A : Type) :=
| Value (a : A)
| Throw (e : JsError).
Arguments Value {A} a.
Arguments Throw {A} e.

(** ** The world outside a function call *)

Inductive Effect :=
| ConsoleError (label : string)
| RouterPush (path : string)
| Reload.

Record World := {
  localStorage : gmap string string;
  (* React state of the component *)
  loading : bool;
  chatId : option string;
  initialMessages : list Message;
  sessions : list ChatSession;
  (* [Date.now()], in milliseconds *)
  dateNow : Z;
  (* what the page did to its surroundings, oldest first *)
  effects : list Effect
}.

Definition with_storage (f : gmap string string → gmap string string) (w : World) : World :=
  {| localStorage := f (localStorage w); loading := loading w; chatId := chatId w;
     initialMessages := initialMessages w; sessions := sessions w;
     dateNow := dateNow w; effects := effects w |}.

Definition with_loading (b : bool) (w : World) : World :=
  {| localStorage := localStorage w; loading := b; chatId := chatId w;
     initialMessages := initialMessages w; sessions := sessions w;
     dateNow := dateNow w; effects := effects w |}.

Definition with_chatId (c : option string) (w : World) : World :=
  {| localStorage := localStorage w; loading := loading w; chatId := c;
     initialMessages := initialMessages w; sessions := sessions w;
     dateNow := dateNow w; effects := effects w |}.

Definition with_initialMessages (ms : list Message) (w : World) : World :=
  {| localStorage := localStorage w; loading := loading w; chatId := chatId w;
     initialMessages := ms; sessions := sessions w;
     dateNow := dateNow w; effects := effects w |}.

Definition with_sessions (ss : list ChatSession) (w : World) : World :=
  {| localStorage := localStorage w; loading := loading w; chatId := chatId w;
     initialMessages := initialMessages w; sessions := ss;
     dateNow := dateNow w; effects := effects w |}.

Definition with_effect (e : Effect) (w : World) : World :=
  {| localStorage := localStorage w; loading := loading w; chatId := chatId w;
     initialMessages := initialMessages w; sessions := sessions w;
     dateNow := dateNow w; effects := (effects w ++ [e])%list |}.

(** ** Network requests *)

Inductive Request :=
| PostRefresh (authorization : string)
| PostSetChatId (authorization : string)
| GetHistory (authorization : string) (x_chat_id : string)
| GetSessions (authorization : string).

Definition Data (q : Request) : Type :=
  match q with
  | PostRefresh _ => TokenResponse
  | PostSetChatId _ => ChatIdResponse
  | GetHistory _ _ => ChatHistoryResponse
  | GetSessions _ => ChatSessionsResponse
  end.

(** A [Response] object: its [ok] flag and what [json()] yields ([None] when
    the body does not parse). *)
Record HttpResponse (D : Type) := { ok : bool; body : option D }.
Arguments ok {D} _.
Arguments body {D} _.

Inductive FetchResult (D : Type) :=
| Rejected
| Resolved (response : HttpResponse D).
Arguments Rejected {D}.
Arguments Resolved {D} response.

(** ** Asynchronous computations *)

(** [Ret w a]: finished in world [w] with [a].  [Await w q k]: suspended on
    request [q], having left the world as [w]; [k r w'] continues once the
    backend has answered [r] and the world has become [w'].  [Yield w k]:
    suspended on the body of a response that has already arrived. *)
Inductive Async (A : Type) : Type :=
| Ret (w : World) (a : A)
| Await (w : World) (q : Request) (k : FetchResult (Data q) → World → Async A)
| Yield (w : World) (k : World → Async A).
Arguments Ret {A} w a.
Arguments Await {A} w q k.
Arguments Yield {A} w k.

Definition Task (A : Type) : Type := World → Async (outcome A).

Fixpoint bindA {A B} (m : Async (outcome A)) (f : A → Task B) : Async (outcome B) :=
  match m with
  | Ret w (Value a) => f a w
  | Ret w (Throw e) => Ret w (Throw e)
  | Await w q k => Await w q (λ r w', bindA (k r w') f)
  | Yield w k => Yield w (λ w', bindA (k w') f)
  end.

Fixpoint catchA {A} (m : Async (outcome A)) (h : JsError → Task A) : Async (outcome A) :=
  match m with
  | Ret w (Value a) => Ret w (Value a)
  | Ret w (Throw e) => h e w
  | Await w q k => Await w q (λ r w', catchA (k r w') h)
  | Yield w k => Yield w (λ w', catchA (k w') h)
  end.

Definition ret {A} (a : A) : Task A := λ w, Ret w (Value a).
Definition throw {A} (e : JsError) : Task A := λ w, Ret w (Throw e).
Definition bind {A B} (m : Task A) (f : A → Task B) : Task B := λ w, bindA (m w) f.
Definition try_catch {A} (m : Task A) (h : JsError → Task A) : Task A := λ w, catchA (m w) h.

(** The monad structure is registered with stdpp, whose notations
    [x ← m; k] and [m;; k] then sequence statements as the source does. *)
#[global] Instance task_ret : MRet Task := @ret.
#[global] Instance task_bind : MBind Task := λ A B f m, bind m f.

(** Synchronous primitives. *)
Definition read {A} (f : World → A) : Task A := λ w, Ret w (Value (f w)).
Definition modify (f : World → World) : Task unit := λ w, Ret (f w) (Value tt).

Definition getItem (key : string) : Task (option string) :=
  read (λ w, localStorage w !! key).
Definition setItem (key value : string) : Task unit :=
  modify (with_storage <[key := value]>).
Definition removeItem (key : string) : Task unit :=
  modify (with_storage (delete key)).

Definition console_error (label : string) : Task unit := modify (with_effect (ConsoleError label)).
Definition router_push (path : string) : Task unit := modify (with_effect (RouterPush path)).
Definition reload : Task unit := modify (with_effect Reload).

Definition setLoading (b : bool) : Task unit := modify (with_loading b).
Definition setChatId (c : string) : Task unit := modify (with_chatId (Some c)).
Definition setInitialMessages (ms : list Message) : Task unit := modify (with_initialMessages ms).
Definition setSessions (ss : list ChatSession) : Task unit := modify (with_sessions ss).

(** [await fetch(...)]: the promise rejects, or resolves to a response. *)
Definition fetch (q : Request) : Task (HttpResponse (Data q)) :=
  λ w, Await w q (λ r w',
    match r with
    | Rejected => Ret w' (Throw FetchError)
    | Resolved response => Ret w' (Value response)
    end).

(** [await response.json()]: a second suspension, resumed with the parsed
    body or with the parse error. *)
Definition json {D} (response : HttpResponse D) : Task D :=
  λ w, Yield w (λ w',
    match body response with
    | Some d => Ret w' (Value d)
    | None => Ret w' (Throw SyntaxError)
    end).

(** A template literal [`Bearer ${token}`]. *)
Definition Bearer (token : string) : string := String.append "Bearer " token.

(** After a truthiness test TypeScript narrows [string | null] to [string];
    [the_string v] is the string of a truthy [v]. *)
Definition the_string (v : option string) : string := default "" v.

(** ** Token Manager *)

Module TokenManager.

Definition getAccessToken : Task (option string) := getItem "token".

Definition getRefreshToken : Task (option string) := getItem "refresh_token".

Definition setTokens (accessToken refreshToken : string) : Task unit :=
  setItem "token" accessToken;;
  setItem "refresh_token" refreshToken.

Definition clearTokens : Task unit :=
  removeItem "token";;
  removeItem "refresh_token";;
  removeItem CHAT_ID_STORAGE_KEY.

(* [!!(getItem('token') && getItem('refresh_token'))] *)
Definition hasValidTokens : Task bool :=
  a ← getItem "token";
  if truthy a then r ← getItem "refresh_token"; mret (truthy r) else mret false.

End TokenManager.

(** ** The Dashboard component *)

Section Dashboard.

(** [jwtDecode] of the [jwt-decode] package: the payload of the token, or
    [None] where the package throws. *)
Variable jwtDecode : string → option JWTPayload.

Definition jwt_decode (token : string) : Task JWTPayload :=
  match jwtDecode token with
  | Some decoded => mret decoded
  | None => throw InvalidTokenError
  end.

Definition isTokenExpiringSoon (token : string) : Task bool :=
  try_catch
    (decoded ← jwt_decode token;
     if negb (truthy_num (exp decoded)) then mret false else
     now ← read dateNow;
     let currentTime := now / 1000 in
     mret (default 0 (exp decoded) - currentTime <? TOKEN_REFRESH_THRESHOLD))
    (λ error, console_error "Error decoding token:";; mret false).

Definition refreshTokens : Task (string * string) :=
  refreshToken ← TokenManager.getRefreshToken;
  if negb (truthy refreshToken) then throw (Error "No refresh token available") else
  response ← fetch (PostRefresh (Bearer (the_string refreshToken)));
  if negb (ok response) then throw (Error "Failed to refresh token") else
  data ← json response;
  if negb (truthy (access_token data)) || negb (truthy (refresh_token data))
  then throw (Error "Invalid token response") else
  TokenManager.setTokens (the_string (access_token data)) (the_string (refresh_token data));;
  mret (the_string (access_token data), the_string (refresh_token data)).

Definition getValidToken : Task (option string) :=
  valid ← TokenManager.hasValidTokens;
  if negb valid then mret None else
  token ← TokenManager.getAccessToken;
  expiring ← (if truthy token then isTokenExpiringSoon (the_string token) else mret false);
  if expiring : bool then
    try_catch
      (pair ← refreshTokens; mret (Some (fst pair)))
      (λ _, TokenManager.clearTokens;; mret None)
  else mret token.

Definition getActiveChatId (token : string) : Task (option string) :=
  storedChatId ← getItem CHAT_ID_STORAGE_KEY;
  if truthy storedChatId then mret storedChatId else
  try_catch
    (response ← fetch (PostSetChatId (Bearer token));
     if negb (ok response) then throw (Error "API failed to create new chat ID") else
     data ← json response;
     setItem CHAT_ID_STORAGE_KEY (active_chat_id data);;
     mret (Some (active_chat_id data)))
    (λ error, console_error "Error setting chat ID:";; mret None).

Definition fetchChatHistory (id token : string) : Task unit :=
  try_catch
    (response ← fetch (GetHistory (Bearer token) id);
     if ok response then
       data ← json response;
       setInitialMessages (or_empty (history data))
     else
       (* if chat history fetch fails, reset chatId *)
       removeItem CHAT_ID_STORAGE_KEY;;
       reload)
    (λ error, console_error "Error fetching chat history:").

Definition fetchChatSessions (token : string) : Task unit :=
  try_catch
    (response ← fetch (GetSessions (Bearer token));
     if ok response then
       data ← json response;
       setSessions (or_empty (sessions_field data))
     else mret tt)
    (λ error, console_error "Failed to fetch chat sessions:").

Definition handleSelectChat (selectedChatId : string) : Task unit :=
  token ← TokenManager.getAccessToken;
  current ← read chatId;
  if truthy token && negb (bool_decide (Some selectedChatId = current)) then
    setLoading true;;
    setItem CHAT_ID_STORAGE_KEY selectedChatId;;
    setChatId selectedChatId;;
    fetchChatHistory selectedChatId (the_string token);;
    setLoading false
  else mret tt.

Definition handleCreateNewChat : Task unit :=
  token ← TokenManager.getAccessToken;
  if truthy token then
    setLoading true;;
    removeItem CHAT_ID_STORAGE_KEY;;
    newChatId ← getActiveChatId (the_string token);
    (if truthy newChatId then
       setChatId (the_string newChatId);;
       setInitialMessages [];;
       fetchChatSessions (the_string token)
     else mret tt);;
    setLoading false
  else mret tt.

(** The [initialize] closure of the mount effect; its [finally] clause runs
    on every path out of the [try]. *)
Definition initialize : Task unit :=
  try_catch
    (token ← getValidToken;
     if negb (truthy token) then router_push "/" else
     fetchChatSessions (the_string token);;
     activeChatId ← getActiveChatId (the_string token);
     if negb (truthy activeChatId) then
       console_error "Failed to get or create a chat session.";;
       setLoading false
     else
       setChatId (the_string activeChatId);;
       fetchChatHistory (the_string activeChatId) (the_string token))
    (λ err,
       console_error "Error initializing dashboard:";;
       TokenManager.clearTokens;;
       router_push "/");;
  setLoading false.

(** The callback of the 60-second interval. *)
Definition refreshInterval : Task unit :=
  token ← TokenManager.getAccessToken;
  expiring ← (if truthy token then isTokenExpiringSoon (the_string token) else mret false);
  if expiring : bool then
    try_catch
      (refreshTokens;; mret tt)
      (λ _, TokenManager.clearTokens;; router_push "/")
  else mret tt.

End Dashboard.

(** ** Running a computation against an environment *)

(** What the rest of the system does at a suspension point: the backend
    answers the request, and other tasks of the page may have changed the
    world in the meantime. *)
Record Env := {
  respond : ∀ q : Request, FetchResult (Data q);
  meanwhile : World → World
}.

Record Run (A : Type) := {
  requests : list Request;    (* the network calls made, in order *)
  suspended : list World;     (* the world as left at each suspension *)
  final : World;
  result : A
}.
Arguments requests {A} _.
Arguments suspended {A} _.
Arguments final {A} _.
Arguments result {A} _.

Fixpoint run {A} (env : Env) (m : Async A) : Run A :=
  match m with
  | Ret w a => {| requests := []; suspended := []; final := w; result := a |}
  | Await w q k =>
      let r := run env (k (respond env q) (meanwhile env w)) in
      {| requests := q :: requests r; suspended := w :: suspended r;
         final := final r; result := result r |}
  | Yield w k =>
      let r := run env (k (meanwhile env w)) in
      {| requests := requests r; suspended := w :: suspended r;
         final := final r; result := result r |}
  end.

(** An environment in which nothing else touches the world. *)
Definition alone (backend : ∀ q : Request, FetchResult (Data q)) : Env :=
  {| respond := backend; meanwhile := id |}.

(** The world a call would return in had it written nothing itself: only
    the environment has acted, once per suspension. *)
Definition undisturbed {A} (env : Env) (r : Run A) (w : World) : World :=
  Nat.iter (length (suspended r)) (meanwhile env) w.

(** The worlds seen at the first [n] suspensions of a call that writes
    nothing. *)
Fixpoint idle (env : Env) (w : World) (n : nat) : list World :=
  match n with
  | O => []
  | S n' => w :: idle env (meanwhile env w) n'
  end.

(** ** Observations on the credential store *)

(** Both tokens are stored or neither is. *)
Definition pair_invariant (w : World) : Prop :=
  is_Some (localStorage w !! "token") ↔ is_Some (localStorage w !! "refresh_token").

(** [I] holds of every world the computation lets anybody see (at each
    suspension and on return), provided it holds of every world the
    computation is resumed in. *)
Fixpoint always {A} (I : World → Prop) (m : Async A) : Prop :=
  match m with
  | Ret w _ => I w
  | Await w q k => I w ∧ ∀ r w', I w' → always I (k r w')
  | Yield w k => I w ∧ ∀ w', I w' → always I (k w')
  end.

Definition throughout {A} (I : World → Prop) (r : Run A) : Prop :=
  Forall I (suspended r) ∧ I (final r).

(** A task keeps [I]: started in a world where [I] holds, it shows only such
    worlds, as long as it is resumed only in such worlds. *)
Definition preserves {A} (I : World → Prop) (t : Task A) : Prop :=
  ∀ w, I w → always I (t w).

(** The computation ends normally on every path: whatever the backend
    answers and whatever world it is resumed in, no exception escapes. *)
Fixpoint returns {A} (m : Async (outcome A)) : Prop :=
  match m with
  | Ret _ (Value _) => True
  | Ret _ (Throw _) => False
  | Await _ q k => ∀ r w', returns (k r w')
  | Yield _ k => ∀ w', returns (k w')
  end.

(** The two credential keys hold [a] and [r]. *)
Definition holds_tokens (a r : option string) (w : World) : Prop :=
  localStorage w !! "token" = a ∧ localStorage w !! "refresh_token" = r.

Definition never_throws {A} (t : Task A) : Prop := ∀ w, returns (t w).

(** The [Authorization] header of a request. *)
Definition authorization_of (q : Request) : string :=
  match q with
  | PostRefresh a | PostSetChatId a | GetHistory a _ | GetSessions a => a
  end.

(** [P] holds of the world in which the computation ends, on every path. *)
Fixpoint ends {A} (P : World → Prop) (m : Async A) : Prop :=
  match m with
  | Ret w _ => P w
  | Await _ q k => ∀ r w', ends P (k r w')
  | Yield _ k => ∀ w', ends P (k w')
  end.

(** ** Sample inputs *)

(** A decoder that knows five tokens; every other string fails to decode. *)
Definition sample_jwtDecode (token : string) : option JWTPayload :=
  if String.eqb token "exp=1100" then Some {| exp := Some 1100; type := Some "access" |}
  else if String.eqb token "exp=1299" then Some {| exp := Some 1299; type := Some "access" |}
  else if String.eqb token "exp=1300" then Some {| exp := Some 1300; type := Some "access" |}
  else if String.eqb token "exp=0" then Some {| exp := Some 0; type := Some "access" |}
  else if String.eqb token "no-exp" then Some {| exp := None; type := Some "access" |}
  else None.

(** A freshly mounted component at [Date.now() = 1000000] over the given
    storage content. *)
Definition mounted (store : list (string * string)) : World :=
  {| localStorage := list_to_map store; loading := true; chatId := None;
     initialMessages := []; sessions := []; dateNow := 1000000; effects := [] |}.

(** A component that is showing chat [c] with the session list [ss]. *)
Definition showing (store : list (string * string)) (c : string) (ss : list ChatSession) : World :=
  {| localStorage := list_to_map store; loading := false; chatId := Some c;
     initialMessages := []; sessions := ss; dateNow := 1000000; effects := [] |}.

(** The world [w] with the clock at [t] milliseconds. *)
Definition at_time (t : Z) (w : World) : World :=
  {| localStorage := localStorage w; loading := loading w; chatId := chatId w;
     initialMessages := initialMessages w; sessions := sessions w;
     dateNow := t; effects := effects w |}.

(** The network is down: every [fetch] rejects. *)
Definition backend_down (q : Request) : FetchResult (Data q) := Rejected.

(** The backend answers every request with a non-success status. *)
Definition backend_refusing (q : Request) : FetchResult (Data q) :=
  Resolved {| ok := false; body := None |}.

(** The backend answers every request successfully. *)
Definition backend_up (q : Request) : FetchResult (Data q) :=
  match q with
  | PostRefresh _ =>
      Resolved {| ok := true;
                  body := Some {| access_token := Some "A2"; refresh_token := Some "R2";
                                  token_type := Some "bearer" |} |}
  | PostSetChatId _ => Resolved {| ok := true; body := Some {| active_chat_id := "c2" |} |}
  | GetHistory _ _ => Resolved {| ok := true; body := Some {| history := Some ["hello"] |} |}
  | GetSessions _ =>
      Resolved {| ok := true;
                  body := Some {| sessions_field := Some [ {| chat_id := "c2"; title := "T" |} ] |} |}
  end.

(** The refresh endpoint answers 200 with a body that lacks the refresh token. *)
Definition backend_half (q : Request) : FetchResult (Data q) :=
  match q with
  | PostRefresh _ =>
      Resolved {| ok := true;
                  body := Some {| access_token := Some "A2"; refresh_token := None;
                                  token_type := Some "bearer" |} |}
  | q' => backend_refusing q'
  end.

(** The backend of [backend_up], except that the sessions endpoint answers
    200 with a body that has no [sessions] field. *)
Definition backend_no_sessions (q : Request) : FetchResult (Data q) :=
  match q with
  | GetSessions _ => Resolved {| ok := true; body := Some {| sessions_field := None |} |}
  | GetHistory _ _ => Resolved {| ok := true; body := Some {| history := None |} |}
  | q' => backend_up q'
  end.

(** ** Proof support *)

(** Unfolds the monad layer so that [cbn] can step through a task. *)
Ltac task_unfold :=
  unfold json, getItem, setItem, removeItem, console_error, router_push,
    reload, setLoading, setChatId, setInitialMessages, setSessions,
    mbind, mret, task_bind, task_ret, bind, ret, throw, try_catch,
    read, modify in *.

Ltac task_step := task_unfold; cbn.

(** * Expiry evaluation *)

Section Expiry.

Variable jwtDecode : string → option JWTPayload.

Lemma isTokenExpiringSoon_decoded token decoded w :
  jwtDecode token = Some decoded →
  isTokenExpiringSoon jwtDecode token w =
    Ret w (Value (match exp decoded with
                  | Some e => negb (e =? 0) && (e - dateNow w / 1000 <? TOKEN_REFRESH_THRESHOLD)
                  | None => false
                  end)).
Proof.
  intros Hdec. unfold isTokenExpiringSoon, jwt_decode. rewrite Hdec.
  task_step. destruct (exp decoded) as [e|]; cbn; [|done].
  by destruct (e =? 0).
Qed.

Lemma isTokenExpiringSoon_undecodable token w :
  jwtDecode token = None →
  isTokenExpiringSoon jwtDecode token w =
    Ret (with_effect (ConsoleError "Error decoding token:") w) (Value false).
Proof.
  intros Hdec. unfold isTokenExpiringSoon, jwt_decode. rewrite Hdec. done.
Qed.

(** The expiry check never suspends and never throws. *)
Lemma isTokenExpiringSoon_total token w :
  ∃ w' b, isTokenExpiringSoon jwtDecode token w = Ret w' (Value b)
          ∧ localStorage w' = localStorage w.
Proof.
  destruct (jwtDecode token) as [decoded|] eqn:Hdec.
  - eexists _, _. split; [by apply isTokenExpiringSoon_decoded|done].
  - eexists _, _. split; [by apply isTokenExpiringSoon_undecodable|done].
Qed.

End Expiry.

(** * The Token Manager *)

Lemma truthy_Some v :
  truthy v = true → ∃ s, v = Some s ∧ s ≠ "" ∧ the_string v = s.
Proof.
  destruct v as [s|]; cbn; [|done].
  intros Hs. exists s. split_and!; [done| |done]. by intros ->.
Qed.

Lemma hasValidTokens_eval w :
  TokenManager.hasValidTokens w =
    Ret w (Value (truthy (localStorage w !! "token")
                  && truthy (localStorage w !! "refresh_token"))).
Proof.
  unfold TokenManager.hasValidTokens. task_step.
  by destruct (truthy (localStorage w !! "token")).
Qed.

Lemma setTokens_eval a r w :
  TokenManager.setTokens a r w =
    Ret (with_storage (λ ls, <["refresh_token" := r]> (<["token" := a]> ls)) w) (Value tt).
Proof. done. Qed.

Lemma clearTokens_eval w :
  TokenManager.clearTokens w =
    Ret (with_storage (λ ls, delete CHAT_ID_STORAGE_KEY (delete "refresh_token" (delete "token" ls))) w)
        (Value tt).
Proof. done. Qed.

(** * [getValidToken] *)

(** The synchronous prefix of [getValidToken]: the presence test and the read
    of the access token. *)
Lemma getValidToken_prefix jwtDecode w :
  getValidToken jwtDecode w =
    if truthy (localStorage w !! "token") && truthy (localStorage w !! "refresh_token")
    then bindA (isTokenExpiringSoon jwtDecode (the_string (localStorage w !! "token")) w)
           (λ expiring : bool,
              if expiring
              then try_catch (pair ← refreshTokens; mret (Some (fst pair)))
                             (λ _, TokenManager.clearTokens;; mret None)
              else mret (localStorage w !! "token"))
    else Ret w (Value None).
Proof.
  unfold getValidToken, TokenManager.getAccessToken.
  unfold mbind at 1, task_bind, bind. rewrite hasValidTokens_eval.
  destruct (truthy (localStorage w !! "token")) eqn:Ha; cbn [bindA andb negb]; [|done].
  destruct (truthy (localStorage w !! "refresh_token")); cbn [negb]; [|done].
  task_step. by rewrite Ha.
Qed.

Lemma getValidToken_not_expiring jwtDecode token w w' :
  TokenManager.hasValidTokens w = Ret w (Value true) →
  localStorage w !! "token" = Some token →
  isTokenExpiringSoon jwtDecode token w = Ret w' (Value false) →
  getValidToken jwtDecode w = Ret w' (Value (Some token)).
Proof.
  rewrite hasValidTokens_eval. intros Hvalid Htok Hexp.
  injection Hvalid as Hvalid.
  rewrite getValidToken_prefix, Hvalid, Htok.
  change (the_string (Some token)) with token. by rewrite Hexp.
Qed.

(** * Expiry evaluation: threshold and fail-open *)

(** C2 (as stated) fails on a token whose expiry claim is [0]: at
    [Date.now() = 1000000] the remaining time [0 - 1000] is below the
    threshold, yet the check answers [false]. *)
Lemma isTokenExpiringSoon_epoch_counterexample :
  sample_jwtDecode "exp=0" = Some {| exp := Some 0; type := Some "access" |} ∧
  ¬ (result (run (alone backend_up) (isTokenExpiringSoon sample_jwtDecode "exp=0" (mounted [])))
       = Value true
     ↔ 0 - dateNow (mounted []) / 1000 < 300).
Proof.
  split; [done|]. cbn. intros [_ Hclaim].
  by specialize (Hclaim eq_refl).
Qed.

(** C2 (amended): for every access token whose payload decodes and carries a
    non-zero expiry claim, the check returns [true] exactly when
    [exp - floor(now / 1000) < 300]; with exactly 300 seconds left it returns
    [false].  It neither suspends, nor throws, nor changes the world. *)
Theorem isTokenExpiringSoon_threshold jwtDecode token decoded e w :
  jwtDecode token = Some decoded →
  exp decoded = Some e →
  e ≠ 0 →
  ∃ b, isTokenExpiringSoon jwtDecode token w = Ret w (Value b)
       ∧ (b = true ↔ e - dateNow w / 1000 < 300)
       ∧ (e - dateNow w / 1000 = 300 → b = false).
Proof.
  intros Hdec Hexp He.
  rewrite (isTokenExpiringSoon_decoded _ _ _ _ Hdec), Hexp.
  apply Z.eqb_neq in He. rewrite He. cbn [negb andb].
  eexists. split; [done|]. unfold TOKEN_REFRESH_THRESHOLD. split.
  - apply Z.ltb_lt.
  - intros ->. done.
Qed.

Lemma isTokenExpiringSoon_threshold_witness :
  ∃ b, isTokenExpiringSoon sample_jwtDecode "exp=1300" (mounted []) = Ret (mounted []) (Value b)
       ∧ (b = true ↔ 1300 - dateNow (mounted []) / 1000 < 300)
       ∧ (1300 - dateNow (mounted []) / 1000 = 300 → b = false).
Proof.
  apply (isTokenExpiringSoon_threshold sample_jwtDecode "exp=1300"
           {| exp := Some 1300; type := Some "access" |} 1300 (mounted []));
    [reflexivity | reflexivity | lia].
Defined.

(** C8: a token whose payload has no expiry claim, and a token that cannot
    be decoded at all, are both reported as not expiring (the second one
    after logging the decoding error); with such an access token in a valid
    pair, [getValidToken] returns it as it is and makes no network call. *)
Theorem isTokenExpiringSoon_fail_open jwtDecode token w :
  (jwtDecode token = None ∨ ∃ decoded, jwtDecode token = Some decoded ∧ exp decoded = None) →
  (∃ w', isTokenExpiringSoon jwtDecode token w = Ret w' (Value false)
         ∧ localStorage w' = localStorage w) ∧
  (TokenManager.hasValidTokens w = Ret w (Value true) →
   localStorage w !! "token" = Some token →
   ∀ env, let r := run env (getValidToken jwtDecode w) in
          result r = Value (Some token) ∧ requests r = []
          ∧ localStorage (final r) = localStorage w).
Proof.
  intros Hcase.
  assert (∃ w', isTokenExpiringSoon jwtDecode token w = Ret w' (Value false)
                ∧ localStorage w' = localStorage w) as (w' & Hsoon & Hstore).
  { destruct Hcase as [Hdec|(decoded & Hdec & Hexp)].
    - eexists. split; [by apply isTokenExpiringSoon_undecodable|done].
    - eexists. rewrite (isTokenExpiringSoon_decoded _ _ _ _ Hdec), Hexp. done. }
  split; [by eauto|].
  intros Hvalid Htok env.
  by rewrite (getValidToken_not_expiring _ _ _ _ Hvalid Htok Hsoon).
Qed.

Lemma isTokenExpiringSoon_fail_open_witness :
  let w := mounted [("token", "garbage"); ("refresh_token", "R1")] in
  (∃ w', isTokenExpiringSoon sample_jwtDecode "garbage" w = Ret w' (Value false)
         ∧ localStorage w' = localStorage w) ∧
  let r := run (alone backend_up) (getValidToken sample_jwtDecode w) in
  result r = Value (Some "garbage") ∧ requests r = []
  ∧ localStorage (final r) = localStorage w.
Proof.
  intros w.
  destruct (isTokenExpiringSoon_fail_open sample_jwtDecode "garbage" w (or_introl eq_refl))
    as [Hcheck Hfast].
  split; [exact Hcheck|].
  exact (Hfast eq_refl eq_refl (alone backend_up)).
Defined.

(** C10: an expiry claim of [0] is falsy, so the token is treated like one
    without an expiry claim: the check returns [false] whatever the clock
    says, and [getValidToken] hands the stored token back without a refresh. *)
Theorem isTokenExpiringSoon_zero_exp jwtDecode token decoded w :
  jwtDecode token = Some decoded →
  exp decoded = Some 0 →
  isTokenExpiringSoon jwtDecode token w = Ret w (Value false) ∧
  (TokenManager.hasValidTokens w = Ret w (Value true) →
   localStorage w !! "token" = Some token →
   ∀ env, let r := run env (getValidToken jwtDecode w) in
          result r = Value (Some token) ∧ requests r = [] ∧ final r = w).
Proof.
  intros Hdec Hexp.
  assert (isTokenExpiringSoon jwtDecode token w = Ret w (Value false)) as Hsoon.
  { by rewrite (isTokenExpiringSoon_decoded _ _ _ _ Hdec), Hexp. }
  split; [done|]. intros Hvalid Htok env.
  by rewrite (getValidToken_not_expiring _ _ _ _ Hvalid Htok Hsoon).
Qed.

Lemma isTokenExpiringSoon_zero_exp_witness :
  let w := mounted [("token", "exp=0"); ("refresh_token", "R1")] in
  isTokenExpiringSoon sample_jwtDecode "exp=0" w = Ret w (Value false) ∧
  let r := run (alone backend_up) (getValidToken sample_jwtDecode w) in
  result r = Value (Some "exp=0") ∧ requests r = [] ∧ final r = w.
Proof.
  intros w.
  destruct (isTokenExpiringSoon_zero_exp sample_jwtDecode "exp=0"
              {| exp := Some 0; type := Some "access" |} w eq_refl eq_refl)
    as [Hcheck Hfast].
  split; [exact Hcheck|].
  exact (Hfast eq_refl eq_refl (alone backend_up)).
Defined.

(** * The refresh exchange *)

Lemma undisturbed_alone {A} backend (r : Run A) w : undisturbed (alone backend) r w = w.
Proof.
  unfold undisturbed. induction (length (suspended r)) as [|n IH]; [done|].
  cbn. exact IH.
Qed.

Lemma idle_alone backend w n : Forall (eq w) (idle (alone backend) w n).
Proof. induction n as [|n IH]; cbn; by constructor. Qed.

(** What a call of [refreshTokens] does, in any environment: nothing is
    written before the last suspension; on an error nothing is written at
    all; on success the two tokens of the response are written in one
    synchronous step, after the last suspension. *)
Lemma refreshTokens_run env w :
  let r := run env (refreshTokens w) in
  suspended r = idle env w (length (suspended r)) ∧
  match result r with
  | Throw _ => final r = undisturbed env r w
  | Value (a, rt) =>
      final r = with_storage (λ ls, <["refresh_token" := rt]> (<["token" := a]> ls))
                  (undisturbed env r w)
      ∧ ∃ old resp data,
          localStorage w !! "refresh_token" = Some old
          ∧ respond env (PostRefresh (Bearer old)) = Resolved resp
          ∧ ok resp = true ∧ body resp = Some data
          ∧ access_token data = Some a ∧ refresh_token data = Some rt
          ∧ a ≠ "" ∧ rt ≠ ""
  end.
Proof.
  unfold refreshTokens, TokenManager.getRefreshToken, TokenManager.setTokens, fetch, undisturbed.
  task_step.
  destruct (truthy (localStorage w !! "refresh_token")) eqn:Hold; cbn; [|done].
  apply truthy_Some in Hold as (old & Hold & _ & ->).
  destruct (respond env _) as [|[[] [data|]]] eqn:Hresp; cbn; [done| |done..].
  destruct (truthy (access_token data)) eqn:Ha, (truthy (refresh_token data)) eqn:Hr; cbn;
    [|done..].
  apply truthy_Some in Ha as (a & Ha & Hane & ->).
  apply truthy_Some in Hr as (rt & Hr & Hrne & ->).
  split; [done|]. split; [done|].
  exists old, {| ok := true; body := Some data |}, data. done.
Qed.

(** A response that lacks either token makes [refreshTokens] throw. *)
Lemma refreshTokens_incomplete env w old resp data :
  localStorage w !! "refresh_token" = Some old →
  respond env (PostRefresh (Bearer old)) = Resolved resp →
  body resp = Some data →
  truthy (access_token data) = false ∨ truthy (refresh_token data) = false →
  ∃ e, result (run env (refreshTokens w)) = Throw e.
Proof.
  intros Hold Hresp Hbody Hmissing.
  unfold refreshTokens, TokenManager.getRefreshToken, TokenManager.setTokens, fetch.
  task_step. rewrite Hold. cbn.
  destruct (String.eqb old ""); cbn; [by eexists|].
  rewrite Hresp. destruct resp as [[] b]; cbn in *; [|by eexists].
  rewrite Hbody. cbn.
  destruct Hmissing as [-> | ->]; cbn; [by eexists|].
  destruct (truthy (access_token data)); cbn; by eexists.
Qed.

(** The three ways in which the exchange itself fails: the request is
    rejected, the status is not a success, or the body does not parse. *)
Lemma refreshTokens_failure_modes env w old :
  localStorage w !! "refresh_token" = Some old →
  respond env (PostRefresh (Bearer old)) = Rejected
  ∨ (∃ resp, respond env (PostRefresh (Bearer old)) = Resolved resp ∧ ok resp = false)
  ∨ respond env (PostRefresh (Bearer old)) = Resolved {| ok := true; body := None |} →
  ∃ e, result (run env (refreshTokens w)) = Throw e.
Proof.
  intros Hold Hfail.
  unfold refreshTokens, TokenManager.getRefreshToken, TokenManager.setTokens, fetch.
  task_step. rewrite Hold. cbn.
  destruct (String.eqb old ""); cbn; [by eexists|].
  destruct Hfail as [-> | [(resp & -> & Hok) | ->]]; cbn; [by eexists| |by eexists].
  destruct resp as [[] b]; [done|]. by eexists.
Qed.

(** C1: whatever the store holds and whatever the backend answers, a call of
    [refreshTokens] either returns the pair [(a, rt)] of the response with
    both tokens written to the store, or throws with the world exactly as it
    was, so that [hasValidTokens] answers as before.  The store is not
    written before the call is resumed, so the world seen at the suspension
    is the old one; and a response without either token is an error. *)
Theorem refreshTokens_all_or_nothing (backend : ∀ q, FetchResult (Data q)) (w : World) :
  let r := run (alone backend) (refreshTokens w) in
  Forall (eq w) (suspended r) ∧
  match result r with
  | Value (a, rt) =>
      final r = with_storage (λ ls, <["refresh_token" := rt]> (<["token" := a]> ls)) w
      ∧ localStorage (final r) !! "token" = Some a
      ∧ localStorage (final r) !! "refresh_token" = Some rt
      ∧ ∃ old resp data,
          localStorage w !! "refresh_token" = Some old
          ∧ backend (PostRefresh (Bearer old)) = Resolved resp
          ∧ body resp = Some data
          ∧ access_token data = Some a ∧ refresh_token data = Some rt
  | Throw _ =>
      final r = w
      ∧ TokenManager.hasValidTokens (final r) = TokenManager.hasValidTokens w
  end ∧
  (∀ old resp data,
     localStorage w !! "refresh_token" = Some old →
     backend (PostRefresh (Bearer old)) = Resolved resp →
     body resp = Some data →
     access_token data = None ∨ refresh_token data = None →
     ∃ e, result r = Throw e).
Proof.
  intros r. subst r.
  pose proof (refreshTokens_run (alone backend) w) as [Hsusp Hres]. cbv zeta in Hres.
  split; [rewrite Hsusp; apply idle_alone|]. split.
  - destruct (result _) as [[a rt]|e].
    + destruct Hres as [Hfinal (old & resp & data & Hold & Hresp & _ & Hbody & Ha & Hr & _)].
      rewrite undisturbed_alone in Hfinal. rewrite Hfinal. cbn.
      split_and!; [done|by simplify_map_eq|by simplify_map_eq|].
      by exists old, resp, data.
    + rewrite undisturbed_alone in Hres. by rewrite Hres.
  - intros old resp data Hold Hresp Hbody Hmissing.
    apply (refreshTokens_incomplete (alone backend) w old resp data Hold Hresp Hbody).
    by destruct Hmissing as [-> | ->]; [left|right].
Qed.

Lemma refreshTokens_all_or_nothing_witness :
  let w := mounted [("token", "exp=1100"); ("refresh_token", "R1")] in
  final (run (alone backend_half) (refreshTokens w)) = w ∧
  final (run (alone backend_up) (refreshTokens w))
    = with_storage (λ ls, <["refresh_token" := "R2"]> (<["token" := "A2"]> ls)) w.
Proof.
  intros w. split.
  - exact (proj1 (proj1 (proj2 (refreshTokens_all_or_nothing backend_half w)))).
  - exact (proj1 (proj1 (proj2 (refreshTokens_all_or_nothing backend_up w)))).
Defined.

(** * Running sequenced computations *)

Lemma run_bindA {A B} env (m : Async (outcome A)) (f : A → Task B) :
  run env (bindA m f) =
    let r := run env m in
    match result r with
    | Value a =>
        let r' := run env (f a (final r)) in
        {| requests := requests r ++ requests r'; suspended := suspended r ++ suspended r';
           final := final r'; result := result r' |}
    | Throw e =>
        {| requests := requests r; suspended := suspended r; final := final r;
           result := Throw e |}
    end.
Proof.
  induction m as [w [a|e]|w q k IH|w k IH]; cbn.
  - by destruct (run env (f a w)).
  - done.
  - rewrite IH. cbv zeta. destruct (result (run env (k _ _))); by cbn.
  - rewrite IH. cbv zeta. destruct (result (run env (k _))); by cbn.
Qed.

Lemma run_catchA {A} env (m : Async (outcome A)) (h : JsError → Task A) :
  run env (catchA m h) =
    let r := run env m in
    match result r with
    | Value a => r
    | Throw e =>
        let r' := run env (h e (final r)) in
        {| requests := requests r ++ requests r'; suspended := suspended r ++ suspended r';
           final := final r'; result := result r' |}
    end.
Proof.
  induction m as [w [a|e]|w q k IH|w k IH]; cbn.
  - done.
  - by destruct (run env (h e w)).
  - rewrite IH. destruct (run env (k _ _)) as [rq su fi [a|e]]; done.
  - rewrite IH. destruct (run env (k _)) as [rq su fi [a|e]]; done.
Qed.

(** * [getValidToken] when the refresh fails *)

(** The slow path: the run of [getValidToken] in terms of the run of the
    refresh it starts. *)
Lemma getValidToken_expiring jwtDecode env w token :
  TokenManager.hasValidTokens w = Ret w (Value true) →
  localStorage w !! "token" = Some token →
  isTokenExpiringSoon jwtDecode token w = Ret w (Value true) →
  run env (getValidToken jwtDecode w) =
    let rr := run env (refreshTokens w) in
    match result rr with
    | Value tokens => {| requests := requests rr; suspended := suspended rr;
                         final := final rr; result := Value (Some (fst tokens)) |}
    | Throw _ =>
        {| requests := requests rr; suspended := suspended rr;
           final := with_storage
                      (λ ls, delete CHAT_ID_STORAGE_KEY (delete "refresh_token" (delete "token" ls)))
                      (final rr);
           result := Value None |}
    end.
Proof.
  rewrite hasValidTokens_eval. intros Hvalid Htok Hsoon.
  injection Hvalid as Hvalid.
  rewrite getValidToken_prefix, Hvalid, Htok.
  change (the_string (Some token)) with token. rewrite Hsoon.
  cbn [bindA]. unfold try_catch, mbind, task_bind, bind.
  rewrite run_catchA, run_bindA. cbv zeta.
  destruct (run env (refreshTokens w)) as [rq su fi [tokens|e]]; cbn.
  - by rewrite !app_nil_r.
  - by rewrite !app_nil_r.
Qed.

(** C3: with a token pair in the store and an access token that is expiring
    soon, a refresh that fails for whatever reason makes [getValidToken]
    return [null] with the access token, the refresh token and the persisted
    chat identifier all removed, whatever else happened to the world while
    the exchange was pending. *)
Theorem getValidToken_failed_refresh_clears jwtDecode env w token e :
  TokenManager.hasValidTokens w = Ret w (Value true) →
  localStorage w !! "token" = Some token →
  isTokenExpiringSoon jwtDecode token w = Ret w (Value true) →
  result (run env (refreshTokens w)) = Throw e →
  let r := run env (getValidToken jwtDecode w) in
  result r = Value None
  ∧ localStorage (final r) !! "token" = None
  ∧ localStorage (final r) !! "refresh_token" = None
  ∧ localStorage (final r) !! CHAT_ID_STORAGE_KEY = None
  ∧ requests r = requests (run env (refreshTokens w)).
Proof.
  intros Hvalid Htok Hsoon Hfail.
  rewrite (getValidToken_expiring _ _ _ _ Hvalid Htok Hsoon). cbv zeta.
  rewrite Hfail. cbn.
  split_and!; [done|by simplify_map_eq..|done].
Qed.

Lemma getValidToken_failed_refresh_clears_witness :
  let w := mounted [("token", "exp=1100"); ("refresh_token", "R1"); ("active_chat_id", "c1")] in
  let r := run (alone backend_refusing) (getValidToken sample_jwtDecode w) in
  result r = Value None
  ∧ localStorage (final r) !! "token" = None
  ∧ localStorage (final r) !! "refresh_token" = None
  ∧ localStorage (final r) !! CHAT_ID_STORAGE_KEY = None
  ∧ requests r = requests (run (alone backend_refusing) (refreshTokens w)).
Proof.
  intros w.
  exact (getValidToken_failed_refresh_clears sample_jwtDecode (alone backend_refusing) w
           "exp=1100" (Error "Failed to refresh token") eq_refl eq_refl eq_refl eq_refl).
Defined.

(** * The pair invariant *)

Section Invariant.

Variable I : World → Prop.

Lemma always_bindA {A B} (m : Async (outcome A)) (f : A → Task B) :
  always I m → (∀ a, preserves I (f a)) → always I (bindA m f).
Proof.
  intros Hm Hf. induction m as [w [a|e]|w q k IH|w k IH]; cbn in *.
  - by apply Hf.
  - done.
  - destruct Hm as [Hw Hk]. split; [done|]. intros r w' Hw'. by apply IH, Hk.
  - destruct Hm as [Hw Hk]. split; [done|]. intros w' Hw'. by apply IH, Hk.
Qed.

Lemma always_catchA {A} (m : Async (outcome A)) (h : JsError → Task A) :
  always I m → (∀ e, preserves I (h e)) → always I (catchA m h).
Proof.
  intros Hm Hh. induction m as [w [a|e]|w q k IH|w k IH]; cbn in *.
  - done.
  - by apply Hh.
  - destruct Hm as [Hw Hk]. split; [done|]. intros r w' Hw'. by apply IH, Hk.
  - destruct Hm as [Hw Hk]. split; [done|]. intros w' Hw'. by apply IH, Hk.
Qed.

Lemma preserves_bind {A B} (m : Task A) (f : A → Task B) :
  preserves I m → (∀ a, preserves I (f a)) → preserves I (m ≫= f).
Proof. intros Hm Hf w Hw. by apply always_bindA; [apply Hm|]. Qed.

Lemma preserves_try_catch {A} (m : Task A) (h : JsError → Task A) :
  preserves I m → (∀ e, preserves I (h e)) → preserves I (try_catch m h).
Proof. intros Hm Hh w Hw. by apply always_catchA; [apply Hm|]. Qed.

Lemma preserves_ret {A} (a : A) : preserves I (mret a).
Proof. by intros w Hw. Qed.

Lemma preserves_throw {A} e : preserves I (@throw A e).
Proof. by intros w Hw. Qed.

Lemma preserves_read {A} (f : World → A) : preserves I (read f).
Proof. by intros w Hw. Qed.

Lemma preserves_modify f : (∀ w, I w → I (f w)) → preserves I (modify f).
Proof. intros Hf w Hw. by apply Hf. Qed.

Lemma preserves_fetch q : preserves I (fetch q).
Proof. intros w Hw. split; [done|]. by intros [|resp] w' Hw'. Qed.

Lemma preserves_json {D} (resp : HttpResponse D) : preserves I (json resp).
Proof. intros w Hw. split; [done|]. intros w' Hw'. by destruct (body resp). Qed.

Lemma preserves_if {A} (b : bool) (t1 t2 : Task A) :
  preserves I t1 → preserves I t2 → preserves I (if b then t1 else t2).
Proof. by destruct b. Qed.

(** In an environment that keeps [I] itself, a computation that keeps [I]
    shows [I] at every suspension of its run and on return. *)
Lemma always_run {A} env (m : Async A) :
  (∀ w, I w → I (meanwhile env w)) →
  always I m → throughout I (run env m).
Proof.
  intros Henv. induction m as [w a|w q k IH|w k IH]; cbn.
  - intros Hw. by split; [constructor|].
  - intros [Hw Hk]. destruct (IH (respond env q) (meanwhile env w)) as [Hs Hf].
    { by apply Hk, Henv. }
    by split; [constructor|].
  - intros [Hw Hk]. destruct (IH (meanwhile env w)) as [Hs Hf].
    { by apply Hk, Henv. }
    by split; [constructor|].
Qed.

End Invariant.

Lemma pair_invariant_storage f w :
  (∀ ls : gmap string string, f ls !! "token" = ls !! "token") →
  (∀ ls : gmap string string, f ls !! "refresh_token" = ls !! "refresh_token") →
  pair_invariant w → pair_invariant (with_storage f w).
Proof.
  unfold pair_invariant. cbn. intros Ha Hr. by rewrite Ha, Hr.
Qed.

Lemma pair_invariant_setTokens a r w :
  pair_invariant (with_storage (λ ls, <["refresh_token" := r]> (<["token" := a]> ls)) w).
Proof.
  unfold pair_invariant. cbn. by simplify_map_eq.
Qed.

Lemma pair_invariant_clearTokens w :
  pair_invariant
    (with_storage (λ ls, delete CHAT_ID_STORAGE_KEY (delete "refresh_token" (delete "token" ls))) w).
Proof.
  unfold pair_invariant, CHAT_ID_STORAGE_KEY. cbn. simplify_map_eq.
  split; intros [? ?]; done.
Qed.

Lemma preserves_setTokens a r : preserves pair_invariant (TokenManager.setTokens a r).
Proof. intros w _. rewrite setTokens_eval. apply pair_invariant_setTokens. Qed.

Lemma preserves_clearTokens : preserves pair_invariant TokenManager.clearTokens.
Proof. intros w _. rewrite clearTokens_eval. apply pair_invariant_clearTokens. Qed.

Lemma preserves_setItem_chat v : preserves pair_invariant (setItem CHAT_ID_STORAGE_KEY v).
Proof.
  apply preserves_modify. intros w. apply pair_invariant_storage; intros ls;
    by rewrite lookup_insert_ne.
Qed.

Lemma preserves_removeItem_chat : preserves pair_invariant (removeItem CHAT_ID_STORAGE_KEY).
Proof.
  apply preserves_modify. intros w. apply pair_invariant_storage; intros ls;
    by rewrite lookup_delete_ne.
Qed.

(** Steps through a task, one statement at a time. *)
Ltac keep_step :=
  lazymatch goal with
  | |- preserves _ (mbind _ _) => apply preserves_bind; [|intros ?]
  | |- preserves _ (try_catch _ _) => apply preserves_try_catch; [|intros ?]
  | |- preserves _ (if _ then _ else _) => apply preserves_if
  | |- preserves _ (mret _) => apply preserves_ret
  | |- preserves _ (throw _) => apply preserves_throw
  | |- preserves _ (read _) => apply preserves_read
  | |- preserves _ (getItem _) => apply preserves_read
  | |- preserves _ (fetch _) => apply preserves_fetch
  | |- preserves _ (json _) => apply preserves_json
  | |- preserves _ (TokenManager.setTokens _ _) => apply preserves_setTokens
  | |- preserves _ TokenManager.clearTokens => apply preserves_clearTokens
  | |- preserves _ (setItem CHAT_ID_STORAGE_KEY _) => apply preserves_setItem_chat
  | |- preserves _ (removeItem CHAT_ID_STORAGE_KEY) => apply preserves_removeItem_chat
  | |- preserves _ (modify _) => apply preserves_modify; by intros ? ?
  end.

Ltac keeps := repeat keep_step.

Lemma preserves_refreshTokens : preserves pair_invariant refreshTokens.
Proof. unfold refreshTokens, TokenManager.getRefreshToken. keeps. Qed.

Lemma preserves_isTokenExpiringSoon jwtDecode token :
  preserves pair_invariant (isTokenExpiringSoon jwtDecode token).
Proof.
  unfold isTokenExpiringSoon, jwt_decode, console_error.
  destruct (jwtDecode token); keeps.
Qed.

Lemma preserves_getValidToken jwtDecode : preserves pair_invariant (getValidToken jwtDecode).
Proof.
  unfold getValidToken, TokenManager.hasValidTokens, TokenManager.getAccessToken.
  keeps; first [apply preserves_isTokenExpiringSoon | apply preserves_refreshTokens].
Qed.

Lemma preserves_refreshInterval jwtDecode : preserves pair_invariant (refreshInterval jwtDecode).
Proof.
  unfold refreshInterval, TokenManager.getAccessToken, router_push.
  keeps; first [apply preserves_isTokenExpiringSoon | apply preserves_refreshTokens].
Qed.

Lemma preserves_getActiveChatId token : preserves pair_invariant (getActiveChatId token).
Proof. unfold getActiveChatId, console_error. keeps. Qed.

Lemma preserves_fetchChatHistory id token : preserves pair_invariant (fetchChatHistory id token).
Proof. unfold fetchChatHistory, setInitialMessages, reload, console_error. keeps. Qed.

Lemma preserves_fetchChatSessions token : preserves pair_invariant (fetchChatSessions token).
Proof. unfold fetchChatSessions, setSessions, console_error. keeps. Qed.

Lemma preserves_initialize jwtDecode : preserves pair_invariant (initialize jwtDecode).
Proof.
  unfold initialize, router_push, console_error, setLoading, setChatId.
  keeps;
    first [ apply preserves_getValidToken | apply preserves_fetchChatSessions
          | apply preserves_getActiveChatId | apply preserves_fetchChatHistory ].
Qed.

(** C9: the operations that write the credential store keep the pair
    invariant (access token stored iff refresh token stored).  [setTokens]
    and [clearTokens] establish it from any store; [refreshTokens],
    [getValidToken] and their two callers, the mount-time [initialize] and
    the interval callback, show it at every suspension and on return when
    they start from a store that has it and the tasks that run in between
    keep it too. *)
Theorem credential_pair_invariant jwtDecode env w :
  (∀ w', pair_invariant w' → pair_invariant (meanwhile env w')) →
  pair_invariant w →
  (∀ a r w0, throughout pair_invariant (run env (TokenManager.setTokens a r w0)))
  ∧ (∀ w0, throughout pair_invariant (run env (TokenManager.clearTokens w0)))
  ∧ throughout pair_invariant (run env (refreshTokens w))
  ∧ throughout pair_invariant (run env (getValidToken jwtDecode w))
  ∧ throughout pair_invariant (run env (refreshInterval jwtDecode w))
  ∧ throughout pair_invariant (run env (initialize jwtDecode w)).
Proof.
  intros Henv Hw. split_and!.
  - intros a r w0. rewrite setTokens_eval.
    split; [constructor|apply pair_invariant_setTokens].
  - intros w0. rewrite clearTokens_eval.
    split; [constructor|apply pair_invariant_clearTokens].
  - by apply always_run, preserves_refreshTokens.
  - by apply always_run, preserves_getValidToken.
  - by apply always_run, preserves_refreshInterval.
  - by apply always_run, preserves_initialize.
Qed.

Lemma credential_pair_invariant_witness :
  let w := mounted [("token", "exp=1100"); ("refresh_token", "R1")] in
  let env := alone backend_half in
  (∀ a r w0, throughout pair_invariant (run env (TokenManager.setTokens a r w0)))
  ∧ (∀ w0, throughout pair_invariant (run env (TokenManager.clearTokens w0)))
  ∧ throughout pair_invariant (run env (refreshTokens w))
  ∧ throughout pair_invariant (run env (getValidToken sample_jwtDecode w))
  ∧ throughout pair_invariant (run env (refreshInterval sample_jwtDecode w))
  ∧ throughout pair_invariant (run env (initialize sample_jwtDecode w)).
Proof.
  intros w env.
  apply (credential_pair_invariant sample_jwtDecode env w).
  - intros w' Hw'. exact Hw'.
  - split; intros _; eexists; reflexivity.
Defined.

(** * Chat history and chat sessions *)

(** C4 (as stated) fails when the network is down: with the chat identifier
    ["c1"] persisted and a rejected [fetch], the identifier is still stored
    afterwards and no reload was requested; the page only logged the error. *)
Lemma fetchChatHistory_transport_counterexample :
  let w := showing [("token", "exp=1300"); ("refresh_token", "R1"); ("active_chat_id", "c1")]
             "c1" [] in
  let r := run (alone backend_down) (fetchChatHistory "c1" "exp=1300" w) in
  localStorage (final r) !! CHAT_ID_STORAGE_KEY = Some "c1"
  ∧ effects (final r) = [ConsoleError "Error fetching chat history:"]
  ∧ ¬ (localStorage (final r) !! CHAT_ID_STORAGE_KEY = None ∧ Reload ∈ effects (final r)).
Proof.
  cbv zeta. split_and!; [done..|]. by intros [? _].
Qed.

(** A rejected [fetch], or a successful response whose body does not parse,
    ends in the [catch] block: the error is logged and nothing else changes. *)
Lemma fetchChatHistory_transport env id token w :
  let q := GetHistory (Bearer token) id in
  let r := run env (fetchChatHistory id token w) in
  respond env q = Rejected ∨ respond env q = Resolved {| ok := true; body := None |} →
  final r = with_effect (ConsoleError "Error fetching chat history:") (undisturbed env r w)
  ∧ requests r = [q]
  ∧ result r = Value tt.
Proof.
  intros q r. subst q r. unfold fetchChatHistory, fetch, undisturbed. task_step.
  by intros [-> | ->].
Qed.

(** C4 (amended): for every persisted chat identifier, when the history
    endpoint answers with a non-success status, the persisted chat
    identifier is removed from storage and a page reload is requested;
    nothing else changes. *)
Theorem fetchChatHistory_not_ok env id token w resp :
  respond env (GetHistory (Bearer token) id) = Resolved resp →
  ok resp = false →
  let r := run env (fetchChatHistory id token w) in
  final r = with_effect Reload (with_storage (delete CHAT_ID_STORAGE_KEY) (meanwhile env w))
  ∧ localStorage (final r) !! CHAT_ID_STORAGE_KEY = None
  ∧ Reload ∈ effects (final r)
  ∧ requests r = [GetHistory (Bearer token) id].
Proof.
  intros Hresp Hok. unfold fetchChatHistory, fetch. task_step.
  rewrite Hresp. destruct resp as [[] b]; [done|]. cbn.
  split_and!; [done|by simplify_map_eq| |done].
  apply elem_of_app. right. by apply list_elem_of_singleton.
Qed.

Lemma fetchChatHistory_not_ok_witness :
  let w := showing [("token", "exp=1300"); ("refresh_token", "R1"); ("active_chat_id", "c1")]
             "c1" [] in
  let r := run (alone backend_refusing) (fetchChatHistory "c1" "exp=1300" w) in
  final r = with_effect Reload (with_storage (delete CHAT_ID_STORAGE_KEY) w)
  ∧ localStorage (final r) !! CHAT_ID_STORAGE_KEY = None
  ∧ Reload ∈ effects (final r)
  ∧ requests r = [GetHistory (Bearer "exp=1300") "c1"].
Proof.
  intros w.
  exact (fetchChatHistory_not_ok (alone backend_refusing) "c1" "exp=1300" w
           {| ok := false; body := None |} eq_refl eq_refl).
Defined.

(** C5 (as stated) fails once a session list has been loaded: with one
    session on display and a non-success answer of the sessions endpoint,
    the list is afterwards what it was, not the empty list. *)
Lemma fetchChatSessions_counterexample :
  let ss := [ {| chat_id := "c1"; title := "First chat" |} ] in
  let w := showing [("token", "exp=1300"); ("refresh_token", "R1"); ("active_chat_id", "c1")]
             "c1" ss in
  let r := run (alone backend_refusing) (fetchChatSessions "exp=1300" w) in
  sessions (final r) = ss ∧ ¬ (sessions (final r) = []).
Proof. cbv zeta. by split. Qed.

(** C5 (amended): when the session-list fetch fails (a non-success status, a
    rejected [fetch], or a body that does not parse) the sessions collection
    is left as it was, and the failure is not fatal: the call makes its one
    request and returns normally; the store (tokens and persisted chat
    identifier), the current chat id, the history and the spinner are left
    as they were; and the only thing it may add to its surroundings is one
    console message, so that it neither navigates nor reloads.  On a
    non-success status the world is exactly as before. *)
Theorem fetchChatSessions_failure backend token w :
  let q := GetSessions (Bearer token) in
  let r := run (alone backend) (fetchChatSessions token w) in
  (backend q = Rejected
   ∨ backend q = Resolved {| ok := true; body := None |}
   ∨ ∃ resp, backend q = Resolved resp ∧ ok resp = false) →
  sessions (final r) = sessions w
  ∧ localStorage (final r) = localStorage w
  ∧ chatId (final r) = chatId w
  ∧ initialMessages (final r) = initialMessages w
  ∧ loading (final r) = loading w
  ∧ result r = Value tt
  ∧ requests r = [q]
  ∧ (effects (final r) = effects w
     ∨ effects (final r)
       = (effects w ++ [ConsoleError "Failed to fetch chat sessions:"])%list)
  ∧ ((∃ resp, backend q = Resolved resp ∧ ok resp = false) → final r = w).
Proof.
  intros q r. subst q r. unfold fetchChatSessions, fetch. task_step.
  intros [-> | [-> | (resp & -> & Hok)]]; cbn.
  - split_and!; [done..|by right|]. by intros (resp & Hresp & _).
  - split_and!; [done..|by right|]. intros (resp & [= <-] & Hok). done.
  - destruct resp as [[] b]; [done|]. cbn.
    split_and!; [done..|by left|done].
Qed.

Lemma fetchChatSessions_failure_witness :
  let ss := [ {| chat_id := "c1"; title := "First chat" |} ] in
  let w := showing [("token", "exp=1300"); ("refresh_token", "R1"); ("active_chat_id", "c1")]
             "c1" ss in
  let r := run (alone backend_refusing) (fetchChatSessions "exp=1300" w) in
  sessions (final r) = ss
  ∧ localStorage (final r) = localStorage w
  ∧ chatId (final r) = Some "c1"
  ∧ initialMessages (final r) = []
  ∧ loading (final r) = false
  ∧ result r = Value tt
  ∧ requests r = [GetSessions (Bearer "exp=1300")]
  ∧ (effects (final r) = []
     ∨ effects (final r) = [ConsoleError "Failed to fetch chat sessions:"])
  ∧ final r = w.
Proof.
  intros ss w.
  destruct (fetchChatSessions_failure backend_refusing "exp=1300" w
              (or_intror (or_intror
                 (ex_intro _ {| ok := false; body := None |} (conj eq_refl eq_refl)))))
    as (Hs & Hl & Hc & Hm & Hload & Hres & Hreq & Heff & Hsame).
  refine (conj Hs (conj Hl (conj Hc (conj Hm (conj Hload (conj Hres (conj Hreq
            (conj Heff (Hsame _))))))))).
  exists {| ok := false; body := None |}. split; reflexivity.
Defined.

(** The same in any environment: a failed session-list fetch writes nothing
    but, on a transport failure, the console. *)
Lemma fetchChatSessions_failure_frame env token w :
  let q := GetSessions (Bearer token) in
  let r := run env (fetchChatSessions token w) in
  (respond env q = Rejected ∨ respond env q = Resolved {| ok := true; body := None |} →
   final r = with_effect (ConsoleError "Failed to fetch chat sessions:") (undisturbed env r w))
  ∧ (∀ resp, respond env q = Resolved resp → ok resp = false →
     final r = undisturbed env r w).
Proof.
  intros q r. subst q r. unfold fetchChatSessions, fetch, undisturbed. task_step. split.
  - by intros [-> | ->].
  - intros resp -> Hok. by destruct resp as [[] b].
Qed.

(** * The active chat identifier *)

(** C6 (as stated) fails when the persisted identifier is the empty string:
    the guard [if (storedChatId)] takes it for absent, so the call goes to
    the allocation endpoint, returns the identifier issued there and
    overwrites the persisted one. *)
Lemma getActiveChatId_empty_counterexample :
  let w := mounted [("token", "exp=1300"); ("refresh_token", "R1"); ("active_chat_id", "")] in
  let r := run (alone backend_up) (getActiveChatId "exp=1300" w) in
  localStorage w !! CHAT_ID_STORAGE_KEY = Some ""
  ∧ requests r = [PostSetChatId "Bearer exp=1300"]
  ∧ result r = Value (Some "c2")
  ∧ localStorage (final r) !! CHAT_ID_STORAGE_KEY = Some "c2"
  ∧ ¬ (result r = Value (Some "") ∧ requests r = []
       ∧ localStorage (final r) !! CHAT_ID_STORAGE_KEY = Some "").
Proof.
  cbv zeta. split_and!; [done..|]. by intros [? _].
Qed.

(** C6 (amended): for every state in which a non-empty chat identifier is
    persisted, [getActiveChatId] returns that identifier without a network
    call and without changing anything, so that calling it again, with any
    token, returns the same identifier. *)
Theorem getActiveChatId_cached token stored w :
  localStorage w !! CHAT_ID_STORAGE_KEY = Some stored →
  stored ≠ "" →
  ∀ env,
    let r := run env (getActiveChatId token w) in
    result r = Value (Some stored)
    ∧ requests r = []
    ∧ final r = w
    ∧ ∀ token', result (run env (getActiveChatId token' (final r))) = Value (Some stored).
Proof.
  intros Hstored Hne env.
  assert (∀ t, getActiveChatId t w = Ret w (Value (Some stored))) as Hhit.
  { intros t. unfold getActiveChatId. task_step. rewrite Hstored. cbn.
    apply String.eqb_neq in Hne. by rewrite Hne. }
  cbv zeta. rewrite Hhit. cbn. split_and!; [done..|].
  intros token'. by rewrite Hhit.
Qed.

Lemma getActiveChatId_cached_witness :
  let w := mounted [("token", "exp=1300"); ("refresh_token", "R1"); ("active_chat_id", "c1")] in
  let r := run (alone backend_up) (getActiveChatId "exp=1300" w) in
  result r = Value (Some "c1")
  ∧ requests r = []
  ∧ final r = w
  ∧ ∀ token', result (run (alone backend_up) (getActiveChatId token' (final r)))
              = Value (Some "c1").
Proof.
  intros w.
  refine (getActiveChatId_cached "exp=1300" "c1" w eq_refl _ (alone backend_up)).
  discriminate.
Defined.

(** * Selecting a chat *)

(** C7: selecting the chat that is already active does nothing: no request
    is made, and the world (persisted chat identifier, chat id, history,
    sessions and all the rest) is the same afterwards. *)
Theorem handleSelectChat_active_noop selected w :
  chatId w = Some selected →
  ∀ env,
    let r := run env (handleSelectChat selected w) in
    requests r = [] ∧ final r = w ∧ result r = Value tt.
Proof.
  intros Hactive env. unfold handleSelectChat, TokenManager.getAccessToken.
  task_step. rewrite Hactive.
  rewrite bool_decide_eq_true_2; [|done].
  rewrite andb_false_r. done.
Qed.

Lemma handleSelectChat_active_noop_witness :
  let w := showing [("token", "exp=1300"); ("refresh_token", "R1"); ("active_chat_id", "c1")]
             "c1" [ {| chat_id := "c1"; title := "First chat" |} ] in
  let r := run (alone backend_up) (handleSelectChat "c1" w) in
  requests r = [] ∧ final r = w ∧ result r = Value tt.
Proof.
  intros w. exact (handleSelectChat_active_noop "c1" w eq_refl (alone backend_up)).
Defined.

(** * Scenarios *)

(** No stored tokens: [getValidToken] returns [null] without a request. *)
Example getValidToken_logged_out :
  let r := run (alone backend_up) (getValidToken sample_jwtDecode (mounted [])) in
  result r = Value None ∧ requests r = [] ∧ final r = mounted [].
Proof. done. Qed.

(** An access token with 100 seconds left and a backend that issues a fresh
    pair: [getValidToken] returns the new access token and the store holds
    the new pair. *)
Example getValidToken_renews :
  let w := mounted [("token", "exp=1100"); ("refresh_token", "R1")] in
  let r := run (alone backend_up) (getValidToken sample_jwtDecode w) in
  result r = Value (Some "A2")
  ∧ requests r = [PostRefresh "Bearer R1"]
  ∧ localStorage (final r) !! "token" = Some "A2"
  ∧ localStorage (final r) !! "refresh_token" = Some "R2".
Proof. done. Qed.

(** One second below the threshold renews, the threshold itself does not. *)
Example isTokenExpiringSoon_around_threshold :
  result (run (alone backend_up) (isTokenExpiringSoon sample_jwtDecode "exp=1299" (mounted [])))
    = Value true
  ∧ result (run (alone backend_up) (isTokenExpiringSoon sample_jwtDecode "exp=1300" (mounted [])))
    = Value false.
Proof. done. Qed.

(** Mounting with a valid pair and a backend that is up: sessions are
    loaded, a chat identifier is allocated and persisted, its history is
    shown, and the spinner is switched off. *)
Example initialize_ready :
  let w := mounted [("token", "exp=1300"); ("refresh_token", "R1")] in
  let r := run (alone backend_up) (initialize sample_jwtDecode w) in
  requests r = [GetSessions "Bearer exp=1300"; PostSetChatId "Bearer exp=1300";
                GetHistory "Bearer exp=1300" "c2"]
  ∧ chatId (final r) = Some "c2"
  ∧ localStorage (final r) !! CHAT_ID_STORAGE_KEY = Some "c2"
  ∧ sessions (final r) = [ {| chat_id := "c2"; title := "T" |} ]
  ∧ initialMessages (final r) = ["hello"]
  ∧ loading (final r) = false
  ∧ effects (final r) = [].
Proof. done. Qed.

(** A session list that was loaded at mount survives a later failure of the
    sessions endpoint, here on creating a new chat. *)
Example handleCreateNewChat_keeps_sessions :
  let w := mounted [("token", "exp=1300"); ("refresh_token", "R1")] in
  let ready := final (run (alone backend_up) (initialize sample_jwtDecode w)) in
  let flaky (q : Request) : FetchResult (Data q) :=
    match q with
    | GetSessions a => backend_refusing (GetSessions a)
    | q' => backend_up q'
    end in
  let r := run (alone flaky) (handleCreateNewChat ready) in
  sessions ready = [ {| chat_id := "c2"; title := "T" |} ]
  ∧ sessions (final r) = [ {| chat_id := "c2"; title := "T" |} ]
  ∧ initialMessages (final r) = [].
Proof. done. Qed.

(** The interval callback with the network down: credentials are cleared
    and the page navigates away. *)
Example refreshInterval_gives_up :
  let w := showing [("token", "exp=1100"); ("refresh_token", "R1"); ("active_chat_id", "c1")]
             "c1" [] in
  let r := run (alone backend_down) (refreshInterval sample_jwtDecode w) in
  localStorage (final r) = ∅ ∧ effects (final r) = [RouterPush "/"].
Proof. done. Qed.

(** * Further properties of the Token Manager *)

(** X1: what [setTokens] writes is what the getters read back, and
    [hasValidTokens] then holds exactly when neither string is empty; no
    other key of the store is touched. *)
Theorem setTokens_round_trip env a r w :
  let w' := final (run env (TokenManager.setTokens a r w)) in
  result (run env (TokenManager.getAccessToken w')) = Value (Some a)
  ∧ result (run env (TokenManager.getRefreshToken w')) = Value (Some r)
  ∧ result (run env (TokenManager.hasValidTokens w'))
    = Value (negb (String.eqb a "") && negb (String.eqb r ""))
  ∧ ∀ key, key ≠ "token" → key ≠ "refresh_token" →
      localStorage w' !! key = localStorage w !! key.
Proof.
  cbv zeta. rewrite setTokens_eval. cbn [run final].
  rewrite hasValidTokens_eval. unfold TokenManager.getAccessToken, TokenManager.getRefreshToken.
  task_step. simplify_map_eq. split_and!; [done..|].
  intros key Ha Hr. by simplify_map_eq.
Qed.

(** X2: after [clearTokens] the access token, the refresh token and the chat
    identifier are gone and every other key is as before; [getValidToken]
    then answers [null] without a network call. *)
Theorem clearTokens_logs_out jwtDecode env w :
  let w' := final (run env (TokenManager.clearTokens w)) in
  localStorage w' !! "token" = None
  ∧ localStorage w' !! "refresh_token" = None
  ∧ localStorage w' !! CHAT_ID_STORAGE_KEY = None
  ∧ (∀ key, key ≠ "token" → key ≠ "refresh_token" → key ≠ CHAT_ID_STORAGE_KEY →
       localStorage w' !! key = localStorage w !! key)
  ∧ run env (getValidToken jwtDecode w')
    = {| requests := []; suspended := []; final := w'; result := Value None |}.
Proof.
  cbv zeta. rewrite clearTokens_eval. cbn [run final].
  rewrite getValidToken_prefix. unfold CHAT_ID_STORAGE_KEY. cbn.
  simplify_map_eq. split_and!; [done..| |done].
  intros key Ha Hr Hc. by simplify_map_eq.
Qed.

(** * Further properties of the refresh exchange *)

(** X3: without a refresh token in the store (the key is missing or holds
    the empty string) [refreshTokens] throws "No refresh token available"
    at once: no request is made and nothing is written. *)
Theorem refreshTokens_no_refresh_token env w :
  truthy (localStorage w !! "refresh_token") = false →
  run env (refreshTokens w)
  = {| requests := []; suspended := []; final := w;
       result := Throw (Error "No refresh token available") |}.
Proof.
  intros Hrt. unfold refreshTokens, TokenManager.getRefreshToken. task_step.
  by rewrite Hrt.
Qed.

Lemma refreshTokens_no_refresh_token_witness :
  let w := mounted [("token", "exp=1100"); ("refresh_token", "")] in
  run (alone backend_up) (refreshTokens w)
  = {| requests := []; suspended := []; final := w;
       result := Throw (Error "No refresh token available") |}.
Proof.
  intros w. exact (refreshTokens_no_refresh_token (alone backend_up) w eq_refl).
Defined.

(** X4: with a refresh token [rt] in the store, [refreshTokens] makes
    exactly one request, to the refresh endpoint with [rt] as the bearer
    credential, whatever the backend answers. *)
Theorem refreshTokens_one_request env w rt :
  localStorage w !! "refresh_token" = Some rt →
  rt ≠ "" →
  requests (run env (refreshTokens w)) = [PostRefresh (Bearer rt)].
Proof.
  intros Hrt Hne. unfold refreshTokens, TokenManager.getRefreshToken, TokenManager.setTokens, fetch.
  task_step. rewrite Hrt. cbn. apply String.eqb_neq in Hne. rewrite Hne. cbn.
  destruct (respond env _) as [|[[] [data|]]]; cbn; [done| |done..].
  by destruct (truthy (access_token data)), (truthy (refresh_token data)).
Qed.

Lemma refreshTokens_one_request_witness :
  requests (run (alone backend_half)
              (refreshTokens (mounted [("token", "exp=1100"); ("refresh_token", "R1")])))
  = [PostRefresh (Bearer "R1")].
Proof.
  refine (refreshTokens_one_request (alone backend_half)
            (mounted [("token", "exp=1100"); ("refresh_token", "R1")]) "R1" eq_refl _).
  discriminate.
Defined.

(** * Further properties of [getValidToken] *)

(** X5: when [hasValidTokens] fails (either key is missing or empty),
    [getValidToken] answers [null] without a request and without writing:
    a token that is stored on its own is left where it is. *)
Theorem getValidToken_no_pair jwtDecode env w :
  result (run env (TokenManager.hasValidTokens w)) = Value false →
  run env (getValidToken jwtDecode w)
  = {| requests := []; suspended := []; final := w; result := Value None |}.
Proof.
  rewrite hasValidTokens_eval. cbn. intros [= Hpair].
  by rewrite getValidToken_prefix, Hpair.
Qed.

Lemma getValidToken_no_pair_witness :
  let w := mounted [("token", "exp=1100"); ("active_chat_id", "c1")] in
  run (alone backend_up) (getValidToken sample_jwtDecode w)
  = {| requests := []; suspended := []; final := w; result := Value None |}.
Proof.
  intros w. exact (getValidToken_no_pair sample_jwtDecode (alone backend_up) w eq_refl).
Defined.

(** An answer of [true] means the token was decoded, so nothing was logged. *)
Lemma isTokenExpiringSoon_true_pure jwtDecode token w w' :
  isTokenExpiringSoon jwtDecode token w = Ret w' (Value true) → w' = w.
Proof.
  destruct (jwtDecode token) as [decoded|] eqn:Hdec.
  - rewrite (isTokenExpiringSoon_decoded _ _ _ _ Hdec). by intros [= ->].
  - rewrite (isTokenExpiringSoon_undecodable _ _ _ Hdec). by intros [= _].
Qed.

(** X6: with a valid pair whose access token is expiring soon and a refresh
    endpoint that answers with a complete pair, [getValidToken] returns the
    new access token after a single request carrying the old refresh token;
    both new tokens are in the store and nothing else has changed. *)
Theorem getValidToken_renews_pair jwtDecode (backend : ∀ q, FetchResult (Data q)) w token rt data a r :
  localStorage w !! "token" = Some token →
  token ≠ "" →
  localStorage w !! "refresh_token" = Some rt →
  rt ≠ "" →
  result (run (alone backend) (isTokenExpiringSoon jwtDecode token w)) = Value true →
  backend (PostRefresh (Bearer rt)) = Resolved {| ok := true; body := Some data |} →
  access_token data = Some a → a ≠ "" →
  refresh_token data = Some r → r ≠ "" →
  let run_ := run (alone backend) (getValidToken jwtDecode w) in
  result run_ = Value (Some a)
  ∧ requests run_ = [PostRefresh (Bearer rt)]
  ∧ final run_ = with_storage (λ ls, <["refresh_token" := r]> (<["token" := a]> ls)) w.
Proof.
  intros Htok Htne Hrt Hrne Hsoon Hresp Ha Hane Hr Hrne'.
  apply String.eqb_neq in Htne, Hrne, Hane, Hrne'.
  destruct (isTokenExpiringSoon_total jwtDecode token w) as (w' & b & Hcheck & _).
  rewrite Hcheck in Hsoon. injection Hsoon as ->.
  pose proof (isTokenExpiringSoon_true_pure _ _ _ _ Hcheck) as ->.
  rewrite (getValidToken_expiring jwtDecode (alone backend) w token); [|
    by rewrite hasValidTokens_eval, Htok, Hrt; cbn; rewrite Htne, Hrne | done | done].
  unfold refreshTokens, TokenManager.getRefreshToken, TokenManager.setTokens, fetch.
  task_step. rewrite Hrt. cbn. rewrite Hrne. cbn. rewrite Hresp. cbn.
  rewrite Ha, Hr. cbn. rewrite Hane, Hrne'. by cbn.
Qed.

Lemma getValidToken_renews_pair_witness :
  let w := mounted [("token", "exp=1100"); ("refresh_token", "R1"); ("active_chat_id", "c1")] in
  let run_ := run (alone backend_up) (getValidToken sample_jwtDecode w) in
  result run_ = Value (Some "A2")
  ∧ requests run_ = [PostRefresh (Bearer "R1")]
  ∧ final run_ = with_storage (λ ls, <["refresh_token" := "R2"]> (<["token" := "A2"]> ls)) w.
Proof.
  intros w.
  refine (getValidToken_renews_pair sample_jwtDecode backend_up w "exp=1100" "R1"
            {| access_token := Some "A2"; refresh_token := Some "R2";
               token_type := Some "bearer" |} "A2" "R2"
            eq_refl _ eq_refl _ eq_refl eq_refl eq_refl _ eq_refl _); discriminate.
Defined.

(** X7: [getValidToken] never throws, and what it returns describes the
    store it leaves behind: a returned token is non-empty and is the stored
    access token of a valid pair, and [null] is returned only when no valid
    pair is stored afterwards. *)
Theorem getValidToken_postcondition jwtDecode (backend : ∀ q, FetchResult (Data q)) w :
  let run_ := run (alone backend) (getValidToken jwtDecode w) in
  ∃ answer, result run_ = Value answer ∧
    match answer with
    | Some t =>
        t ≠ "" ∧ localStorage (final run_) !! "token" = Some t
        ∧ result (run (alone backend) (TokenManager.hasValidTokens (final run_))) = Value true
    | None =>
        result (run (alone backend) (TokenManager.hasValidTokens (final run_))) = Value false
    end.
Proof.
  cbv zeta.
  destruct (truthy (localStorage w !! "token") && truthy (localStorage w !! "refresh_token"))
    eqn:Hpair.
  2:{ rewrite getValidToken_prefix, Hpair. exists None. cbn.
      by rewrite hasValidTokens_eval, Hpair. }
  pose proof Hpair as Hpair'. apply andb_prop in Hpair' as [Ha Hr].
  apply truthy_Some in Ha as (token & Htok & Htne & _).
  destruct (isTokenExpiringSoon_total jwtDecode token w) as (w' & [] & Hcheck & Hstore).
  - pose proof (isTokenExpiringSoon_true_pure _ _ _ _ Hcheck) as ->.
    rewrite (getValidToken_expiring jwtDecode (alone backend) w token);
      [|by rewrite hasValidTokens_eval, Hpair|done|done].
    pose proof (refreshTokens_run (alone backend) w) as [_ Hres]. cbv zeta in *.
    destruct (result (run (alone backend) (refreshTokens w))) as [[a rt]|e].
    + destruct Hres as [Hfinal (_ & _ & _ & _ & _ & _ & _ & _ & _ & Hane & Hrne)].
      exists (Some a). cbn. rewrite Hfinal, hasValidTokens_eval. cbn.
      simplify_map_eq. cbn. apply String.eqb_neq in Hane as Ha', Hrne as Hr'.
      by rewrite Ha', Hr'.
    + exists None. cbn. rewrite hasValidTokens_eval. cbn. by simplify_map_eq.
  - rewrite (getValidToken_not_expiring jwtDecode token w w');
      [|by rewrite hasValidTokens_eval, Hpair|done|done].
    exists (Some token). cbn. rewrite hasValidTokens_eval, Hstore, Hpair.
    by rewrite Htok.
Qed.

(** * Further properties of the expiry check *)

(** X8: the check is monotone in the clock: a token reported as expiring
    soon at one time is reported so at every later time. *)
Theorem isTokenExpiringSoon_monotone jwtDecode env token w w' :
  dateNow w ≤ dateNow w' →
  result (run env (isTokenExpiringSoon jwtDecode token w)) = Value true →
  result (run env (isTokenExpiringSoon jwtDecode token w')) = Value true.
Proof.
  intros Hclock.
  destruct (jwtDecode token) as [decoded|] eqn:Hdec.
  - rewrite !(isTokenExpiringSoon_decoded _ _ _ _ Hdec). cbn.
    destruct (exp decoded) as [e|]; [|done].
    intros [= Hsoon]. f_equal. apply andb_prop in Hsoon as [-> Hlt]. cbn.
    apply Z.ltb_lt in Hlt. apply Z.ltb_lt.
    assert (dateNow w / 1000 ≤ dateNow w' / 1000) by (apply Z.div_le_mono; lia).
    lia.
  - by rewrite !(isTokenExpiringSoon_undecodable _ _ _ Hdec).
Qed.

Lemma isTokenExpiringSoon_monotone_witness :
  result (run (alone backend_up)
            (isTokenExpiringSoon sample_jwtDecode "exp=1299" (at_time 5000000 (mounted []))))
  = Value true.
Proof.
  refine (isTokenExpiringSoon_monotone sample_jwtDecode (alone backend_up) "exp=1299"
            (mounted []) (at_time 5000000 (mounted [])) _ eq_refl).
  cbn. lia.
Defined.

(** * No exception escapes *)

Lemma returns_bindA {A B} (m : Async (outcome A)) (f : A → Task B) :
  returns m → (∀ a, never_throws (f a)) → returns (bindA m f).
Proof.
  intros Hm Hf. induction m as [w [a|e]|w q k IH|w k IH]; cbn in *.
  - apply Hf.
  - done.
  - intros r w'. apply IH, Hm.
  - intros w'. apply IH, Hm.
Qed.

Lemma returns_catchA {A} (m : Async (outcome A)) (h : JsError → Task A) :
  (∀ e, never_throws (h e)) → returns (catchA m h).
Proof.
  intros Hh. induction m as [w [a|e]|w q k IH|w k IH]; cbn.
  - done.
  - apply Hh.
  - intros r w'. apply IH.
  - intros w'. apply IH.
Qed.

Lemma returns_run {A} env (m : Async (outcome A)) :
  returns m → ∃ a, result (run env m) = Value a.
Proof.
  induction m as [w [a|e]|w q k IH|w k IH]; cbn.
  - by eexists.
  - done.
  - intros Hk. apply IH, Hk.
  - intros Hk. apply IH, Hk.
Qed.

(** A [try] whose body cannot throw never enters its [catch] block. *)
Lemma run_catchA_returns {A} env (m : Async (outcome A)) (h : JsError → Task A) :
  returns m → run env (catchA m h) = run env m.
Proof.
  induction m as [w [a|e]|w q k IH|w k IH]; cbn.
  - done.
  - done.
  - intros Hk. by rewrite IH.
  - intros Hk. by rewrite IH.
Qed.

Lemma never_throws_bind {A B} (m : Task A) (f : A → Task B) :
  never_throws m → (∀ a, never_throws (f a)) → never_throws (m ≫= f).
Proof. intros Hm Hf w. by apply returns_bindA. Qed.

Lemma never_throws_try_catch {A} (m : Task A) (h : JsError → Task A) :
  (∀ e, never_throws (h e)) → never_throws (try_catch m h).
Proof. intros Hh w. by apply returns_catchA. Qed.

Lemma never_throws_ret {A} (a : A) : never_throws (mret a).
Proof. by intros w. Qed.

Lemma never_throws_read {A} (f : World → A) : never_throws (read f).
Proof. by intros w. Qed.

Lemma never_throws_modify f : never_throws (modify f).
Proof. by intros w. Qed.

Lemma never_throws_if {A} (b : bool) (t1 t2 : Task A) :
  never_throws t1 → never_throws t2 → never_throws (if b then t1 else t2).
Proof. by destruct b. Qed.

Ltac safe_step :=
  lazymatch goal with
  | |- never_throws (mbind _ _) => apply never_throws_bind; [|intros ?]
  | |- never_throws (try_catch _ _) => apply never_throws_try_catch; intros ?
  | |- never_throws (if _ then _ else _) => apply never_throws_if
  | |- never_throws (mret _) => apply never_throws_ret
  | |- never_throws (read _) => apply never_throws_read
  | |- never_throws (getItem _) => apply never_throws_read
  | |- never_throws (modify _) => apply never_throws_modify
  | |- never_throws (setItem _ _) => apply never_throws_modify
  | |- never_throws (removeItem _) => apply never_throws_modify
  | |- never_throws (console_error _) => apply never_throws_modify
  | |- never_throws (router_push _) => apply never_throws_modify
  | |- never_throws reload => apply never_throws_modify
  | |- never_throws (setLoading _) => apply never_throws_modify
  | |- never_throws (setChatId _) => apply never_throws_modify
  | |- never_throws (setInitialMessages _) => apply never_throws_modify
  | |- never_throws (setSessions _) => apply never_throws_modify
  end.

Ltac safe := repeat safe_step.

Lemma never_throws_clearTokens : never_throws TokenManager.clearTokens.
Proof. unfold TokenManager.clearTokens. safe. Qed.

Lemma never_throws_hasValidTokens : never_throws TokenManager.hasValidTokens.
Proof. unfold TokenManager.hasValidTokens. safe. Qed.

Lemma never_throws_isTokenExpiringSoon jwtDecode token :
  never_throws (isTokenExpiringSoon jwtDecode token).
Proof. unfold isTokenExpiringSoon. safe. Qed.

Lemma never_throws_getValidToken jwtDecode : never_throws (getValidToken jwtDecode).
Proof.
  unfold getValidToken, TokenManager.getAccessToken. safe;
    first [apply never_throws_hasValidTokens | apply never_throws_isTokenExpiringSoon
          | apply never_throws_clearTokens].
Qed.

Lemma never_throws_getActiveChatId token : never_throws (getActiveChatId token).
Proof. unfold getActiveChatId. safe. Qed.

Lemma never_throws_fetchChatHistory id token : never_throws (fetchChatHistory id token).
Proof. unfold fetchChatHistory. safe. Qed.

Lemma never_throws_fetchChatSessions token : never_throws (fetchChatSessions token).
Proof. unfold fetchChatSessions. safe. Qed.

Lemma never_throws_handleSelectChat selected : never_throws (handleSelectChat selected).
Proof.
  unfold handleSelectChat, TokenManager.getAccessToken. safe.
  apply never_throws_fetchChatHistory.
Qed.

Lemma never_throws_handleCreateNewChat : never_throws handleCreateNewChat.
Proof.
  unfold handleCreateNewChat, TokenManager.getAccessToken. safe;
    first [apply never_throws_getActiveChatId | apply never_throws_fetchChatSessions].
Qed.

Lemma never_throws_initialize jwtDecode : never_throws (initialize jwtDecode).
Proof.
  unfold initialize. safe. apply never_throws_clearTokens.
Qed.

Lemma never_throws_refreshInterval jwtDecode : never_throws (refreshInterval jwtDecode).
Proof.
  unfold refreshInterval, TokenManager.getAccessToken. safe;
    first [apply never_throws_isTokenExpiringSoon | apply never_throws_clearTokens].
Qed.

(** X9: no failure of the network or of the backend escapes as an exception
    from the helpers and handlers of the page: in every environment each of
    them ends normally.  (Of the page's functions only [refreshTokens]
    throws.) *)
Theorem page_never_throws jwtDecode env w :
  (∃ v, result (run env (getValidToken jwtDecode w)) = Value v)
  ∧ (∀ token, ∃ v, result (run env (getActiveChatId token w)) = Value v)
  ∧ (∀ id token, result (run env (fetchChatHistory id token w)) = Value tt)
  ∧ (∀ token, result (run env (fetchChatSessions token w)) = Value tt)
  ∧ (∀ selected, result (run env (handleSelectChat selected w)) = Value tt)
  ∧ result (run env (handleCreateNewChat w)) = Value tt
  ∧ result (run env (initialize jwtDecode w)) = Value tt
  ∧ result (run env (refreshInterval jwtDecode w)) = Value tt.
Proof.
  assert (∀ (t : Task unit), never_throws t → result (run env (t w)) = Value tt) as Hunit.
  { intros t Ht. destruct (returns_run env (t w) (Ht w)) as [[] ->]. done. }
  split_and!.
  - apply returns_run, never_throws_getValidToken.
  - intros token. apply returns_run, never_throws_getActiveChatId.
  - intros id token. apply Hunit, never_throws_fetchChatHistory.
  - intros token. apply Hunit, never_throws_fetchChatSessions.
  - intros selected. apply Hunit, never_throws_handleSelectChat.
  - apply Hunit, never_throws_handleCreateNewChat.
  - apply Hunit, never_throws_initialize.
  - apply Hunit, never_throws_refreshInterval.
Qed.

(** * Allocating the chat identifier *)

(** X10: with no usable chat identifier in the store (none, or the empty
    string) and an allocation endpoint that answers successfully,
    [getActiveChatId] makes one request with the access token as bearer,
    persists the identifier of the response and returns it; if that
    identifier is not empty, the next call returns it from the store without
    a request. *)
Theorem getActiveChatId_allocates (backend : ∀ q, FetchResult (Data q)) token w data :
  truthy (localStorage w !! CHAT_ID_STORAGE_KEY) = false →
  backend (PostSetChatId (Bearer token)) = Resolved {| ok := true; body := Some data |} →
  let r := run (alone backend) (getActiveChatId token w) in
  result r = Value (Some (active_chat_id data))
  ∧ requests r = [PostSetChatId (Bearer token)]
  ∧ final r = with_storage <[CHAT_ID_STORAGE_KEY := active_chat_id data]> w
  ∧ (active_chat_id data ≠ "" →
     ∀ token', run (alone backend) (getActiveChatId token' (final r))
               = {| requests := []; suspended := []; final := final r;
                    result := Value (Some (active_chat_id data)) |}).
Proof.
  intros Hmiss Hresp. unfold getActiveChatId, fetch. task_step.
  rewrite Hmiss. cbn. rewrite Hresp. cbn.
  split_and!; [done..|].
  intros Hne token'. unfold CHAT_ID_STORAGE_KEY. simplify_map_eq. cbn.
  apply String.eqb_neq in Hne. by rewrite Hne.
Qed.

Lemma getActiveChatId_allocates_witness :
  let w := mounted [("token", "exp=1300"); ("refresh_token", "R1")] in
  let r := run (alone backend_up) (getActiveChatId "exp=1300" w) in
  result r = Value (Some "c2")
  ∧ requests r = [PostSetChatId (Bearer "exp=1300")]
  ∧ final r = with_storage <[CHAT_ID_STORAGE_KEY := "c2"]> w
  ∧ ∀ token', run (alone backend_up) (getActiveChatId token' (final r))
              = {| requests := []; suspended := []; final := final r;
                   result := Value (Some "c2") |}.
Proof.
  intros w.
  destruct (getActiveChatId_allocates backend_up "exp=1300" w {| active_chat_id := "c2" |}
              eq_refl eq_refl) as (Hres & Hreq & Hfin & Hagain).
  refine (conj Hres (conj Hreq (conj Hfin (Hagain _)))). discriminate.
Defined.

(** X11: when the allocation fails (the request is rejected, the status is
    not a success, or the body does not parse), [getActiveChatId] returns
    [null], logs the error and leaves the store as it was: nothing is
    persisted. *)
Theorem getActiveChatId_allocation_fails (backend : ∀ q, FetchResult (Data q)) token w :
  truthy (localStorage w !! CHAT_ID_STORAGE_KEY) = false →
  (backend (PostSetChatId (Bearer token)) = Rejected
   ∨ backend (PostSetChatId (Bearer token)) = Resolved {| ok := true; body := None |}
   ∨ ∃ resp, backend (PostSetChatId (Bearer token)) = Resolved resp ∧ ok resp = false) →
  let r := run (alone backend) (getActiveChatId token w) in
  result r = Value None
  ∧ requests r = [PostSetChatId (Bearer token)]
  ∧ final r = with_effect (ConsoleError "Error setting chat ID:") w.
Proof.
  intros Hmiss Hfail. unfold getActiveChatId, fetch. task_step.
  rewrite Hmiss. cbn.
  destruct Hfail as [-> | [-> | (resp & -> & Hok)]]; cbn; [done..|].
  by destruct resp as [[] b].
Qed.

Lemma getActiveChatId_allocation_fails_witness :
  let w := mounted [("token", "exp=1300"); ("refresh_token", "R1")] in
  let r := run (alone backend_down) (getActiveChatId "exp=1300" w) in
  result r = Value None
  ∧ requests r = [PostSetChatId (Bearer "exp=1300")]
  ∧ final r = with_effect (ConsoleError "Error setting chat ID:") w.
Proof.
  intros w.
  exact (getActiveChatId_allocation_fails backend_down "exp=1300" w eq_refl
           (or_introl eq_refl)).
Defined.

(** * Loading history and sessions *)

(** X12: on a successful answer of the history endpoint the displayed
    messages are replaced by the [history] of the body, or by the empty
    list when the body has no [history]; the store, the chat id and the
    session list are untouched and no reload is requested. *)
Theorem fetchChatHistory_loads (backend : ∀ q, FetchResult (Data q)) id token w data :
  backend (GetHistory (Bearer token) id) = Resolved {| ok := true; body := Some data |} →
  let r := run (alone backend) (fetchChatHistory id token w) in
  final r = with_initialMessages (default [] (history data)) w
  ∧ requests r = [GetHistory (Bearer token) id]
  ∧ (history data = None → initialMessages (final r) = []).
Proof.
  intros Hresp. unfold fetchChatHistory, fetch. task_step. rewrite Hresp. cbn.
  split_and!; [done..|]. by intros ->.
Qed.

Lemma fetchChatHistory_loads_witness :
  let w := showing [("token", "exp=1300"); ("refresh_token", "R1"); ("active_chat_id", "c1")]
             "c1" [] in
  let r := run (alone backend_up) (fetchChatHistory "c1" "exp=1300" w) in
  final r = with_initialMessages ["hello"] w
  ∧ requests r = [GetHistory (Bearer "exp=1300") "c1"].
Proof.
  intros w.
  destruct (fetchChatHistory_loads backend_up "c1" "exp=1300" w {| history := Some ["hello"] |}
              eq_refl) as (Hfin & Hreq & _).
  exact (conj Hfin Hreq).
Defined.

(** X13: on a successful answer of the sessions endpoint the session list
    is replaced by the [sessions] of the body, or by the empty list when
    the body has no such field; nothing else changes. *)
Theorem fetchChatSessions_loads (backend : ∀ q, FetchResult (Data q)) token w data :
  backend (GetSessions (Bearer token)) = Resolved {| ok := true; body := Some data |} →
  let r := run (alone backend) (fetchChatSessions token w) in
  final r = with_sessions (default [] (sessions_field data)) w
  ∧ requests r = [GetSessions (Bearer token)]
  ∧ (sessions_field data = None → sessions (final r) = []).
Proof.
  intros Hresp. unfold fetchChatSessions, fetch. task_step. rewrite Hresp. cbn.
  split_and!; [done..|]. by intros ->.
Qed.

Lemma fetchChatSessions_loads_witness :
  let w := showing [("token", "exp=1300"); ("refresh_token", "R1"); ("active_chat_id", "c1")]
             "c1" [ {| chat_id := "c1"; title := "First chat" |} ] in
  let r := run (alone backend_no_sessions) (fetchChatSessions "exp=1300" w) in
  final r = with_sessions [] w
  ∧ requests r = [GetSessions (Bearer "exp=1300")]
  ∧ sessions (final r) = [].
Proof.
  intros w.
  destruct (fetchChatSessions_loads backend_no_sessions "exp=1300" w
              {| sessions_field := None |} eq_refl) as (Hfin & Hreq & Hnone).
  exact (conj Hfin (conj Hreq (Hnone eq_refl))).
Defined.

(** * Switching and creating chats *)

(** X14: without an access token in the store (missing or empty)
    [handleSelectChat] and [handleCreateNewChat] do nothing at all, whatever
    is selected: no request, no change of the store or of the component. *)
Theorem handlers_need_access_token env w :
  truthy (localStorage w !! "token") = false →
  (∀ selected, run env (handleSelectChat selected w)
               = {| requests := []; suspended := []; final := w; result := Value tt |})
  ∧ run env (handleCreateNewChat w)
    = {| requests := []; suspended := []; final := w; result := Value tt |}.
Proof.
  intros Htok. unfold handleSelectChat, handleCreateNewChat, TokenManager.getAccessToken.
  task_step. by rewrite Htok.
Qed.

Lemma handlers_need_access_token_witness :
  let w := showing [("refresh_token", "R1"); ("active_chat_id", "c1")] "c1" [] in
  (∀ selected, run (alone backend_up) (handleSelectChat selected w)
               = {| requests := []; suspended := []; final := w; result := Value tt |})
  ∧ run (alone backend_up) (handleCreateNewChat w)
    = {| requests := []; suspended := []; final := w; result := Value tt |}.
Proof.
  intros w. exact (handlers_need_access_token (alone backend_up) w eq_refl).
Defined.

(** X15: selecting a chat other than the active one, with an access token
    stored, makes exactly one request, for the history of the selected chat,
    and ends with the selected chat as the chat id and the spinner off,
    whatever the backend answers.  The selected identifier stays persisted
    unless the status is not a success, in which case it is removed and a
    reload is requested; the messages shown are those of the answer when it
    is a success with a body, and otherwise still those of the chat shown
    before. *)
Theorem handleSelectChat_switches (backend : ∀ q, FetchResult (Data q)) selected token w :
  localStorage w !! "token" = Some token →
  token ≠ "" →
  chatId w ≠ Some selected →
  let q := GetHistory (Bearer token) selected in
  let r := run (alone backend) (handleSelectChat selected w) in
  requests r = [q]
  ∧ chatId (final r) = Some selected
  ∧ loading (final r) = false
  ∧ sessions (final r) = sessions w
  ∧ match backend q with
    | Resolved {| ok := true; body := Some data |} =>
        localStorage (final r) = <[CHAT_ID_STORAGE_KEY := selected]> (localStorage w)
        ∧ initialMessages (final r) = default [] (history data)
        ∧ effects (final r) = effects w
    | Resolved {| ok := false; body := _ |} =>
        localStorage (final r) = delete CHAT_ID_STORAGE_KEY (localStorage w)
        ∧ initialMessages (final r) = initialMessages w
        ∧ effects (final r) = (effects w ++ [Reload])%list
    | _ =>
        localStorage (final r) = <[CHAT_ID_STORAGE_KEY := selected]> (localStorage w)
        ∧ initialMessages (final r) = initialMessages w
        ∧ effects (final r) = (effects w ++ [ConsoleError "Error fetching chat history:"])%list
    end.
Proof.
  intros Htok Hne Hother q r. subst q r.
  unfold handleSelectChat, TokenManager.getAccessToken, fetchChatHistory, fetch.
  task_step. rewrite Htok. cbn.
  apply String.eqb_neq in Hne. rewrite Hne. cbn.
  rewrite bool_decide_eq_false_2; [|by intros Heq; apply Hother]. cbn.
  destruct (backend _) as [|[[] [data|]]]; cbn; split_and!; try done.
  all: by rewrite delete_insert_eq.
Qed.

Lemma handleSelectChat_switches_witness :
  let w := showing [("token", "exp=1300"); ("refresh_token", "R1"); ("active_chat_id", "c1")]
             "c1" [] in
  let r := run (alone backend_down) (handleSelectChat "c9" w) in
  requests r = [GetHistory (Bearer "exp=1300") "c9"]
  ∧ chatId (final r) = Some "c9"
  ∧ loading (final r) = false
  ∧ sessions (final r) = []
  ∧ localStorage (final r) = <[CHAT_ID_STORAGE_KEY := "c9"]> (localStorage w)
  ∧ initialMessages (final r) = initialMessages w
  ∧ effects (final r) = (effects w ++ [ConsoleError "Error fetching chat history:"])%list.
Proof.
  intros w.
  refine (handleSelectChat_switches backend_down "c9" "exp=1300" w eq_refl _ _); discriminate.
Defined.

(** X16: creating a new chat always asks the backend for a fresh
    identifier, even when one is persisted.  When the allocation succeeds
    with a non-empty identifier, that identifier is persisted and becomes
    the chat id, the messages are emptied, the session list is fetched
    again, and the spinner ends off. *)
Theorem handleCreateNewChat_allocates (backend : ∀ q, FetchResult (Data q)) token w data :
  localStorage w !! "token" = Some token →
  token ≠ "" →
  backend (PostSetChatId (Bearer token)) = Resolved {| ok := true; body := Some data |} →
  active_chat_id data ≠ "" →
  let r := run (alone backend) (handleCreateNewChat w) in
  requests r = [PostSetChatId (Bearer token); GetSessions (Bearer token)]
  ∧ localStorage (final r) = <[CHAT_ID_STORAGE_KEY := active_chat_id data]> (localStorage w)
  ∧ chatId (final r) = Some (active_chat_id data)
  ∧ initialMessages (final r) = []
  ∧ loading (final r) = false.
Proof.
  intros Htok Hne Hresp Hid.
  unfold handleCreateNewChat, TokenManager.getAccessToken, getActiveChatId,
    fetchChatSessions, fetch.
  task_step. rewrite Htok. cbn.
  apply String.eqb_neq in Hne. rewrite Hne. cbn.
  rewrite lookup_delete_eq. cbn. rewrite Hresp. cbn.
  apply String.eqb_neq in Hid. rewrite Hid. cbn.
  destruct (backend (GetSessions _)) as [|[[] [sessions_body|]]]; cbn;
    by rewrite insert_delete_eq.
Qed.

Lemma handleCreateNewChat_allocates_witness :
  let w := showing [("token", "exp=1300"); ("refresh_token", "R1"); ("active_chat_id", "c1")]
             "c1" [] in
  let r := run (alone backend_up) (handleCreateNewChat w) in
  requests r = [PostSetChatId (Bearer "exp=1300"); GetSessions (Bearer "exp=1300")]
  ∧ localStorage (final r) = <[CHAT_ID_STORAGE_KEY := "c2"]> (localStorage w)
  ∧ chatId (final r) = Some "c2"
  ∧ initialMessages (final r) = []
  ∧ loading (final r) = false.
Proof.
  intros w.
  refine (handleCreateNewChat_allocates backend_up "exp=1300" w {| active_chat_id := "c2" |}
            eq_refl _ eq_refl _); discriminate.
Defined.

(** X17: when the allocation for a new chat fails, the identifier that was
    persisted before is gone from the store all the same, while the
    component still shows the old chat: its chat id, messages and sessions
    are unchanged, the sessions are not fetched again, and the spinner ends
    off. *)
Theorem handleCreateNewChat_allocation_fails (backend : ∀ q, FetchResult (Data q)) token w :
  localStorage w !! "token" = Some token →
  token ≠ "" →
  (backend (PostSetChatId (Bearer token)) = Rejected
   ∨ backend (PostSetChatId (Bearer token)) = Resolved {| ok := true; body := None |}
   ∨ ∃ resp, backend (PostSetChatId (Bearer token)) = Resolved resp ∧ ok resp = false) →
  let r := run (alone backend) (handleCreateNewChat w) in
  requests r = [PostSetChatId (Bearer token)]
  ∧ localStorage (final r) = delete CHAT_ID_STORAGE_KEY (localStorage w)
  ∧ chatId (final r) = chatId w
  ∧ initialMessages (final r) = initialMessages w
  ∧ sessions (final r) = sessions w
  ∧ loading (final r) = false.
Proof.
  intros Htok Hne Hfail.
  unfold handleCreateNewChat, TokenManager.getAccessToken, getActiveChatId,
    fetchChatSessions, fetch.
  task_step. rewrite Htok. cbn.
  apply String.eqb_neq in Hne. rewrite Hne. cbn.
  rewrite lookup_delete_eq. cbn.
  destruct Hfail as [-> | [-> | (resp & -> & Hok)]]; cbn; [done..|].
  by destruct resp as [[] b].
Qed.

Lemma handleCreateNewChat_allocation_fails_witness :
  let w := showing [("token", "exp=1300"); ("refresh_token", "R1"); ("active_chat_id", "c1")]
             "c1" [ {| chat_id := "c1"; title := "First chat" |} ] in
  let r := run (alone backend_down) (handleCreateNewChat w) in
  requests r = [PostSetChatId (Bearer "exp=1300")]
  ∧ localStorage (final r) = delete CHAT_ID_STORAGE_KEY (localStorage w)
  ∧ chatId (final r) = Some "c1"
  ∧ initialMessages (final r) = []
  ∧ sessions (final r) = [ {| chat_id := "c1"; title := "First chat" |} ]
  ∧ loading (final r) = false.
Proof.
  intros w.
  refine (handleCreateNewChat_allocation_fails backend_down "exp=1300" w eq_refl _
            (or_introl eq_refl)); discriminate.
Defined.

(** * Mounting the dashboard *)

(** Sequencing inside a [try]: once the first statement has returned, the
    rest runs under the same handler. *)
Lemma run_try_sequence {A B C} env (m : Async (outcome A)) (f : A → Task B)
    (h : JsError → Task B) (k : B → Task C) a :
  result (run env m) = Value a →
  run env (bindA (catchA (bindA m f) h) k) =
    let g := run env m in
    let r' := run env (bindA (catchA (f a (final g)) h) k) in
    {| requests := requests g ++ requests r'; suspended := suspended g ++ suspended r';
       final := final r'; result := result r' |}.
Proof.
  induction m as [w [a'|e]|w q k' IH|w k' IH]; cbn.
  - intros [= ->]. by destruct (run env _).
  - done.
  - intros Hres. by rewrite (IH _ _ Hres).
  - intros Hres. by rewrite (IH _ Hres).
Qed.

(** How a run of [initialize] continues the run of [getValidToken] it
    starts with. *)
Lemma initialize_after_getValidToken jwtDecode env w t :
  result (run env (getValidToken jwtDecode w)) = Value t →
  run env (initialize jwtDecode w) =
    let g := run env (getValidToken jwtDecode w) in
    let r' := run env
      ((try_catch
          (if negb (truthy t) then router_push "/" else
           fetchChatSessions (the_string t);;
           activeChatId ← getActiveChatId (the_string t);
           if negb (truthy activeChatId) then
             console_error "Failed to get or create a chat session.";;
             setLoading false
           else
             setChatId (the_string activeChatId);;
             fetchChatHistory (the_string activeChatId) (the_string t))
          (λ err,
             console_error "Error initializing dashboard:";;
             TokenManager.clearTokens;;
             router_push "/");;
        setLoading false) (final g)) in
    {| requests := requests g ++ requests r'; suspended := suspended g ++ suspended r';
       final := final r'; result := result r' |}.
Proof.
  intros Ht. exact (run_try_sequence env _ _ _ _ t Ht).
Qed.

(** A token returned by [getValidToken] is never the empty string. *)
Lemma getValidToken_token_nonempty jwtDecode env w t :
  result (run env (getValidToken jwtDecode w)) = Value (Some t) → t ≠ "".
Proof.
  destruct (truthy (localStorage w !! "token") && truthy (localStorage w !! "refresh_token"))
    eqn:Hpair.
  2:{ by rewrite getValidToken_prefix, Hpair. }
  pose proof Hpair as Hpair'. apply andb_prop in Hpair' as [Ha Hr].
  apply truthy_Some in Ha as (token & Htok & Htne & _).
  destruct (isTokenExpiringSoon_total jwtDecode token w) as (w' & [] & Hcheck & Hstore).
  - pose proof (isTokenExpiringSoon_true_pure _ _ _ _ Hcheck) as ->.
    rewrite (getValidToken_expiring jwtDecode env w token);
      [|by rewrite hasValidTokens_eval, Hpair|done|done].
    pose proof (refreshTokens_run env w) as [_ Hres]. cbv zeta in *.
    destruct (result (run env (refreshTokens w))) as [[a rt]|e]; cbn; [|done].
    destruct Hres as [_ (_ & _ & _ & _ & _ & _ & _ & _ & _ & Hane & _)].
    by intros [= <-].
  - rewrite (getValidToken_not_expiring jwtDecode token w w');
      [|by rewrite hasValidTokens_eval, Hpair|done|done].
    cbn. by intros [= <-].
Qed.

(** X18: when [getValidToken] answers [null] (nobody is logged in, or the
    refresh has just failed), [initialize] makes no further request: it
    navigates to ["/"] and switches the spinner off, and that is all. *)
Theorem initialize_without_token jwtDecode env w :
  let g := run env (getValidToken jwtDecode w) in
  let r := run env (initialize jwtDecode w) in
  result g = Value None →
  requests r = requests g
  ∧ final r = with_loading false (with_effect (RouterPush "/") (final g))
  ∧ result r = Value tt.
Proof.
  intros g r Hnone. subst g r.
  rewrite (initialize_after_getValidToken _ _ _ _ Hnone). cbv zeta.
  destruct (run env (getValidToken jwtDecode w)) as [rq su w1 res]. cbn.
  by rewrite app_nil_r.
Qed.

Lemma initialize_without_token_witness :
  let g := run (alone backend_up) (getValidToken sample_jwtDecode (mounted [])) in
  let r := run (alone backend_up) (initialize sample_jwtDecode (mounted [])) in
  requests r = requests g
  ∧ final r = with_loading false (with_effect (RouterPush "/") (final g))
  ∧ result r = Value tt.
Proof.
  exact (initialize_without_token sample_jwtDecode (alone backend_up) (mounted []) eq_refl).
Defined.

(** Closes a goal about the effect log: what was appended is not a
    navigation. *)
Ltac no_navigation :=
  let Hin := fresh "Hin" in
  intros ? Hin;
  repeat (apply elem_of_app in Hin as [Hin|Hin];
          [|by apply list_elem_of_singleton in Hin]);
  exact Hin.

(** X19: when [getValidToken] returns a token, everything [initialize] does
    next is done with that token: the sessions request comes first and every
    later request carries the same bearer credential.  However the chat
    endpoints answer, the stored credentials stay as [getValidToken] left
    them, the page does not navigate away, and the spinner ends off.  With a
    non-empty chat identifier persisted, the only further request is the one
    for its history, and it becomes the chat id. *)
Theorem initialize_with_token jwtDecode (backend : ∀ q, FetchResult (Data q)) w t :
  let g := run (alone backend) (getValidToken jwtDecode w) in
  let r := run (alone backend) (initialize jwtDecode w) in
  result g = Value (Some t) →
  ∃ rest,
    requests r = (requests g ++ GetSessions (Bearer t) :: rest)%list
    ∧ Forall (λ q, authorization_of q = Bearer t) rest
    ∧ localStorage (final r) !! "token" = localStorage (final g) !! "token"
    ∧ localStorage (final r) !! "refresh_token" = localStorage (final g) !! "refresh_token"
    ∧ (∀ path, RouterPush path ∈ effects (final r) → RouterPush path ∈ effects (final g))
    ∧ loading (final r) = false
    ∧ (∀ c, localStorage (final g) !! CHAT_ID_STORAGE_KEY = Some c → c ≠ "" →
         rest = [GetHistory (Bearer t) c] ∧ chatId (final r) = Some c).
Proof.
  intros g r Hsome. subst g r.
  pose proof (getValidToken_token_nonempty _ _ _ _ Hsome) as Hne.
  apply String.eqb_neq in Hne.
  rewrite (initialize_after_getValidToken _ _ _ _ Hsome). cbv zeta.
  destruct (run (alone backend) (getValidToken jwtDecode w)) as [rq su w1 res].
  cbn [requests suspended final result]. clear Hsome.
  unfold fetchChatSessions, getActiveChatId, fetchChatHistory, fetch, TokenManager.clearTokens,
    CHAT_ID_STORAGE_KEY.
  task_step. rewrite Hne. cbn.
  destruct (backend (GetSessions _)) as [|[[] [sessions_body|]]]; cbn;
    (destruct (localStorage w1 !! "active_chat_id") as [c0|] eqn:Hchat; cbn;
     [destruct (String.eqb c0 "") eqn:Hc0; cbn; rewrite ?Hc0; cbn|]).
  all: try (destruct (backend (PostSetChatId _)) as [|[[] [[new_id]|]]]; cbn;
            try (destruct (String.eqb new_id "") eqn:Hnew; cbn; rewrite ?Hnew; cbn)).
  all: try (destruct (backend (GetHistory _ _)) as [|[[] [history_body|]]]; cbn).
  all: eexists; split_and!;
    [ reflexivity
    | by repeat constructor
    | by rewrite ?lookup_delete_ne, ?lookup_insert_ne by done
    | by rewrite ?lookup_delete_ne, ?lookup_insert_ne by done
    | no_navigation
    | reflexivity
    | ].
  all: intros c [= <-] Hc; try done; by apply String.eqb_neq in Hc; rewrite Hc in Hc0.
Qed.

Lemma initialize_with_token_witness :
  let w := mounted [("token", "exp=1300"); ("refresh_token", "R1"); ("active_chat_id", "c1")] in
  let g := run (alone backend_down) (getValidToken sample_jwtDecode w) in
  let r := run (alone backend_down) (initialize sample_jwtDecode w) in
  ∃ rest,
    requests r = (requests g ++ GetSessions (Bearer "exp=1300") :: rest)%list
    ∧ Forall (λ q, authorization_of q = Bearer "exp=1300") rest
    ∧ localStorage (final r) !! "token" = localStorage (final g) !! "token"
    ∧ localStorage (final r) !! "refresh_token" = localStorage (final g) !! "refresh_token"
    ∧ (∀ path, RouterPush path ∈ effects (final r) → RouterPush path ∈ effects (final g))
    ∧ loading (final r) = false
    ∧ (∀ c, localStorage (final g) !! CHAT_ID_STORAGE_KEY = Some c → c ≠ "" →
         rest = [GetHistory (Bearer "exp=1300") c] ∧ chatId (final r) = Some c).
Proof.
  intros w.
  exact (initialize_with_token sample_jwtDecode backend_down w "exp=1300" eq_refl).
Defined.

(** * The interval callback *)

Lemma refreshTokens_no_refresh_token_run env w :
  truthy (localStorage w !! "refresh_token") = false →
  run env (refreshTokens w)
  = {| requests := []; suspended := []; final := w;
       result := Throw (Error "No refresh token available") |}.
Proof.
  intros Hrt. unfold refreshTokens, TokenManager.getRefreshToken. task_step.
  by rewrite Hrt.
Qed.

(** The run of the interval callback in terms of the run of the refresh it
    starts, when the stored access token is expiring soon. *)
Lemma refreshInterval_expiring jwtDecode env w token :
  localStorage w !! "token" = Some token →
  token ≠ "" →
  isTokenExpiringSoon jwtDecode token w = Ret w (Value true) →
  run env (refreshInterval jwtDecode w) =
    let rr := run env (refreshTokens w) in
    match result rr with
    | Value _ => {| requests := requests rr; suspended := suspended rr;
                    final := final rr; result := Value tt |}
    | Throw _ =>
        {| requests := requests rr; suspended := suspended rr;
           final := with_effect (RouterPush "/")
                      (with_storage
                         (λ ls, delete CHAT_ID_STORAGE_KEY
                                  (delete "refresh_token" (delete "token" ls)))
                         (final rr));
           result := Value tt |}
    end.
Proof.
  intros Htok Hne Hsoon. apply String.eqb_neq in Hne.
  unfold refreshInterval, TokenManager.getAccessToken.
  unfold mbind at 1, task_bind, bind, getItem, read. cbn [bindA].
  rewrite Htok. unfold truthy at 1. rewrite Hne. cbn [negb].
  change (the_string (Some token)) with token.
  unfold mbind at 1, bind. rewrite Hsoon. cbn [bindA].
  unfold try_catch, mbind, task_bind, bind.
  rewrite run_catchA, run_bindA. cbv zeta.
  destruct (run env (refreshTokens w)) as [rq su fi [tokens|e]]; cbn.
  - by rewrite !app_nil_r.
  - by rewrite !app_nil_r.
Qed.

(** X20: when the stored access token is expiring soon, the interval
    callback does one refresh exchange and nothing else if it succeeds; if
    the refresh throws, for whatever reason, the callback removes the access
    token, the refresh token and the chat identifier and navigates to ["/"].
    It never throws itself. *)
Theorem refreshInterval_outcome jwtDecode env w token :
  localStorage w !! "token" = Some token →
  token ≠ "" →
  isTokenExpiringSoon jwtDecode token w = Ret w (Value true) →
  let rr := run env (refreshTokens w) in
  let r := run env (refreshInterval jwtDecode w) in
  requests r = requests rr
  ∧ result r = Value tt
  ∧ match result rr with
    | Value _ => final r = final rr
    | Throw _ =>
        final r = with_effect (RouterPush "/")
                    (with_storage
                       (λ ls, delete CHAT_ID_STORAGE_KEY (delete "refresh_token" (delete "token" ls)))
                       (final rr))
    end.
Proof.
  intros Htok Hne Hsoon rr r. subst rr r.
  rewrite (refreshInterval_expiring _ _ _ _ Htok Hne Hsoon). cbv zeta.
  by destruct (run env (refreshTokens w)) as [rq su fi [tokens|e]].
Qed.

Lemma refreshInterval_outcome_witness :
  let w := showing [("token", "exp=1100"); ("refresh_token", "R1"); ("active_chat_id", "c1")]
             "c1" [] in
  let rr := run (alone backend_refusing) (refreshTokens w) in
  let r := run (alone backend_refusing) (refreshInterval sample_jwtDecode w) in
  requests r = requests rr
  ∧ result r = Value tt
  ∧ final r = with_effect (RouterPush "/")
                (with_storage
                   (λ ls, delete CHAT_ID_STORAGE_KEY (delete "refresh_token" (delete "token" ls)))
                   (final rr)).
Proof.
  intros w.
  refine (refreshInterval_outcome sample_jwtDecode (alone backend_refusing) w "exp=1100"
            eq_refl _ eq_refl).
  discriminate.
Defined.

(** X21: the two renewal paths treat a missing refresh token differently.
    With an access token that is expiring soon and no refresh token in the
    store, [getValidToken] answers [null] and leaves the store alone, while
    the interval callback clears the store and navigates to ["/"]; neither
    makes a request. *)
Theorem missing_refresh_token_paths jwtDecode env w token :
  localStorage w !! "token" = Some token →
  token ≠ "" →
  isTokenExpiringSoon jwtDecode token w = Ret w (Value true) →
  truthy (localStorage w !! "refresh_token") = false →
  run env (getValidToken jwtDecode w)
  = {| requests := []; suspended := []; final := w; result := Value None |}
  ∧ run env (refreshInterval jwtDecode w)
    = {| requests := []; suspended := [];
         final := with_effect (RouterPush "/")
                    (with_storage
                       (λ ls, delete CHAT_ID_STORAGE_KEY
                                (delete "refresh_token" (delete "token" ls))) w);
         result := Value tt |}.
Proof.
  intros Htok Hne Hsoon Hrt. split.
  - rewrite getValidToken_prefix, Hrt. by rewrite andb_false_r.
  - rewrite (refreshInterval_expiring _ _ _ _ Htok Hne Hsoon).
    by rewrite (refreshTokens_no_refresh_token_run env w Hrt).
Qed.

Lemma missing_refresh_token_paths_witness :
  let w := showing [("token", "exp=1100"); ("active_chat_id", "c1")] "c1" [] in
  run (alone backend_up) (getValidToken sample_jwtDecode w)
  = {| requests := []; suspended := []; final := w; result := Value None |}
  ∧ run (alone backend_up) (refreshInterval sample_jwtDecode w)
    = {| requests := []; suspended := [];
         final := with_effect (RouterPush "/")
                    (with_storage
                       (λ ls, delete CHAT_ID_STORAGE_KEY
                                (delete "refresh_token" (delete "token" ls))) w);
         result := Value tt |}.
Proof.
  intros w.
  refine (missing_refresh_token_paths sample_jwtDecode (alone backend_up) w "exp=1100"
            eq_refl _ eq_refl eq_refl).
  discriminate.
Defined.

(** * What the chat operations leave alone *)

Lemma holds_tokens_storage a r f w :
  (∀ ls : gmap string string, f ls !! "token" = ls !! "token") →
  (∀ ls : gmap string string, f ls !! "refresh_token" = ls !! "refresh_token") →
  holds_tokens a r w → holds_tokens a r (with_storage f w).
Proof.
  unfold holds_tokens. cbn. intros Ha Hr. by rewrite Ha, Hr.
Qed.

Lemma keeps_tokens_setItem_chat a r v :
  preserves (holds_tokens a r) (setItem CHAT_ID_STORAGE_KEY v).
Proof.
  apply preserves_modify. intros w. apply holds_tokens_storage; intros ls;
    by rewrite lookup_insert_ne.
Qed.

Lemma keeps_tokens_removeItem_chat a r :
  preserves (holds_tokens a r) (removeItem CHAT_ID_STORAGE_KEY).
Proof.
  apply preserves_modify. intros w. apply holds_tokens_storage; intros ls;
    by rewrite lookup_delete_ne.
Qed.

Ltac frame_step :=
  lazymatch goal with
  | |- preserves _ (mbind _ _) => apply preserves_bind; [|intros ?]
  | |- preserves _ (try_catch _ _) => apply preserves_try_catch; [|intros ?]
  | |- preserves _ (if _ then _ else _) => apply preserves_if
  | |- preserves _ (mret _) => apply preserves_ret
  | |- preserves _ (throw _) => apply preserves_throw
  | |- preserves _ (read _) => apply preserves_read
  | |- preserves _ (getItem _) => apply preserves_read
  | |- preserves _ (fetch _) => apply preserves_fetch
  | |- preserves _ (json _) => apply preserves_json
  | |- preserves _ (setItem CHAT_ID_STORAGE_KEY _) => apply keeps_tokens_setItem_chat
  | |- preserves _ (removeItem CHAT_ID_STORAGE_KEY) => apply keeps_tokens_removeItem_chat
  | |- preserves _ (modify _) => apply preserves_modify; by intros ? ?
  end.

Ltac frame := repeat frame_step.

Lemma keeps_tokens_getActiveChatId a r token :
  preserves (holds_tokens a r) (getActiveChatId token).
Proof. unfold getActiveChatId, console_error. frame. Qed.

Lemma keeps_tokens_fetchChatHistory a r id token :
  preserves (holds_tokens a r) (fetchChatHistory id token).
Proof. unfold fetchChatHistory, setInitialMessages, reload, console_error. frame. Qed.

Lemma keeps_tokens_fetchChatSessions a r token :
  preserves (holds_tokens a r) (fetchChatSessions token).
Proof. unfold fetchChatSessions, setSessions, console_error. frame. Qed.

Lemma keeps_tokens_handleSelectChat a r selected :
  preserves (holds_tokens a r) (handleSelectChat selected).
Proof.
  unfold handleSelectChat, TokenManager.getAccessToken, setLoading, setChatId.
  frame. apply keeps_tokens_fetchChatHistory.
Qed.

Lemma keeps_tokens_handleCreateNewChat a r :
  preserves (holds_tokens a r) handleCreateNewChat.
Proof.
  unfold handleCreateNewChat, TokenManager.getAccessToken, setLoading, setChatId,
    setInitialMessages.
  frame; first [apply keeps_tokens_getActiveChatId | apply keeps_tokens_fetchChatSessions].
Qed.

(** X22: the chat operations never write the credentials.  Whatever the
    backend answers, the access token and the refresh token in the store are
    the same at every suspension and on return of [getActiveChatId],
    [fetchChatHistory], [fetchChatSessions], [handleSelectChat] and
    [handleCreateNewChat] as they were at the call, as long as the tasks
    that run in between leave them alone too. *)
Theorem chat_operations_keep_credentials env a r w :
  (∀ w', holds_tokens a r w' → holds_tokens a r (meanwhile env w')) →
  holds_tokens a r w →
  (∀ token, throughout (holds_tokens a r) (run env (getActiveChatId token w)))
  ∧ (∀ id token, throughout (holds_tokens a r) (run env (fetchChatHistory id token w)))
  ∧ (∀ token, throughout (holds_tokens a r) (run env (fetchChatSessions token w)))
  ∧ (∀ selected, throughout (holds_tokens a r) (run env (handleSelectChat selected w)))
  ∧ throughout (holds_tokens a r) (run env (handleCreateNewChat w)).
Proof.
  intros Henv Hw. split_and!; intros; apply always_run; try done.
  - by apply keeps_tokens_getActiveChatId.
  - by apply keeps_tokens_fetchChatHistory.
  - by apply keeps_tokens_fetchChatSessions.
  - by apply keeps_tokens_handleSelectChat.
  - by apply keeps_tokens_handleCreateNewChat.
Qed.

Lemma chat_operations_keep_credentials_witness :
  let w := showing [("token", "exp=1300"); ("refresh_token", "R1"); ("active_chat_id", "c1")]
             "c1" [] in
  let env := alone backend_refusing in
  let kept := holds_tokens (Some "exp=1300") (Some "R1") in
  (∀ token, throughout kept (run env (getActiveChatId token w)))
  ∧ (∀ id token, throughout kept (run env (fetchChatHistory id token w)))
  ∧ (∀ token, throughout kept (run env (fetchChatSessions token w)))
  ∧ (∀ selected, throughout kept (run env (handleSelectChat selected w)))
  ∧ throughout kept (run env (handleCreateNewChat w)).
Proof.
  intros w env kept.
  apply (chat_operations_keep_credentials env (Some "exp=1300") (Some "R1") w).
  - intros w' Hw'. exact Hw'.
  - split; reflexivity.
Defined.

(** * Which requests [getValidToken] makes *)

(** X23: [getValidToken] makes at most one request, and only to the refresh
    endpoint with the stored refresh token as the bearer credential; it
    never sends the access token anywhere. *)
Theorem getValidToken_requests jwtDecode env w :
  requests (run env (getValidToken jwtDecode w)) = []
  ∨ ∃ rt, localStorage w !! "refresh_token" = Some rt ∧ rt ≠ ""
          ∧ requests (run env (getValidToken jwtDecode w)) = [PostRefresh (Bearer rt)].
Proof.
  destruct (truthy (localStorage w !! "token") && truthy (localStorage w !! "refresh_token"))
    eqn:Hpair.
  2:{ left. by rewrite getValidToken_prefix, Hpair. }
  pose proof Hpair as Hpair'. apply andb_prop in Hpair' as [Ha Hr].
  apply truthy_Some in Ha as (token & Htok & Htne & _).
  apply truthy_Some in Hr as (rt & Hrt & Hrne & _).
  destruct (isTokenExpiringSoon_total jwtDecode token w) as (w' & [] & Hcheck & Hstore).
  - pose proof (isTokenExpiringSoon_true_pure _ _ _ _ Hcheck) as ->.
    right. exists rt. split_and!; [done..|].
    rewrite (getValidToken_expiring jwtDecode env w token);
      [|by rewrite hasValidTokens_eval, Hpair|done|done].
    cbv zeta.
    assert (requests (run env (refreshTokens w)) = [PostRefresh (Bearer rt)]) as Hreq.
    { unfold refreshTokens, TokenManager.getRefreshToken, TokenManager.setTokens, fetch.
      task_step. rewrite Hrt. cbn. apply String.eqb_neq in Hrne. rewrite Hrne. cbn.
      destruct (respond env _) as [|[[] [data|]]]; cbn; [done| |done..].
      by destruct (truthy (access_token data)), (truthy (refresh_token data)). }
    by destruct (result (run env (refreshTokens w))).
  - left. by rewrite (getValidToken_not_expiring jwtDecode token w w');
      [|rewrite hasValidTokens_eval, Hpair|..].
Qed.

(** * Selecting, then resolving *)

(** X24: a selection is durable.  After [handleSelectChat] has switched to a
    non-empty identifier, and unless the history endpoint answered with a
    non-success status, [getActiveChatId] resolves to the selected chat
    without a request. *)
Theorem handleSelectChat_then_getActiveChatId
    (backend : ∀ q, FetchResult (Data q)) selected token w :
  localStorage w !! "token" = Some token →
  token ≠ "" →
  chatId w ≠ Some selected →
  selected ≠ "" →
  (∀ resp, backend (GetHistory (Bearer token) selected) = Resolved resp → ok resp = true) →
  let after := final (run (alone backend) (handleSelectChat selected w)) in
  ∀ token', run (alone backend) (getActiveChatId token' after)
            = {| requests := []; suspended := []; final := after;
                 result := Value (Some selected) |}.
Proof.
  intros Htok Hne Hother Hsel Hok after token'. subst after.
  apply String.eqb_neq in Hne, Hsel.
  unfold handleSelectChat, TokenManager.getAccessToken, fetchChatHistory, getActiveChatId, fetch.
  task_step. rewrite Htok. cbn. rewrite Hne. cbn.
  rewrite bool_decide_eq_false_2; [|by intros Heq; apply Hother]. cbn.
  destruct (backend (GetHistory _ _)) as [|[[] [data|]]] eqn:Hresp; cbn;
    try (by unfold CHAT_ID_STORAGE_KEY; simplify_map_eq; cbn; rewrite Hsel).
  all: by specialize (Hok _ eq_refl).
Qed.

Lemma handleSelectChat_then_getActiveChatId_witness :
  let w := showing [("token", "exp=1300"); ("refresh_token", "R1"); ("active_chat_id", "c1")]
             "c1" [] in
  let after := final (run (alone backend_down) (handleSelectChat "c9" w)) in
  run (alone backend_down) (getActiveChatId "exp=1300" after)
  = {| requests := []; suspended := []; final := after; result := Value (Some "c9") |}.
Proof.
  intros w.
  refine (handleSelectChat_then_getActiveChatId backend_down "c9" "exp=1300" w
            eq_refl _ _ _ _ "exp=1300"); try discriminate.
Defined.

(** * How the handlers leave [loading] *)

Lemma ends_bindA {A B} (P : World → Prop) (m : Async (outcome A)) (f : A → Task B) :
  returns m → (∀ a w, ends P (f a w)) → ends P (bindA m f).
Proof.
  intros Hm Hf. induction m as [w [a|e]|w q k IH|w k IH]; cbn in *.
  - apply Hf.
  - done.
  - intros r w'. apply IH, Hm.
  - intros w'. apply IH, Hm.
Qed.

Lemma ends_run {A} (P : World → Prop) env (m : Async A) :
  ends P m → P (final (run env m)).
Proof.
  induction m as [w a|w q k IH|w k IH]; cbn.
  - done.
  - intros Hk. apply IH, Hk.
  - intros Hk. apply IH, Hk.
Qed.

(** A task that cannot throw, followed by [setLoading(false)], ends with
    [loading] off. *)
Lemma ends_then_setLoading_false {A} (t : Task A) w :
  never_throws t → ends (λ w', loading w' = false) ((t;; setLoading false) w).
Proof.
  intros Ht. apply ends_bindA; [apply Ht|]. by intros a w'.
Qed.

(** X25: on every run that completes, that is, on which each request made
    has been answered, successfully or not, and whatever other tasks did to
    the component in between, [initialize] ends with [loading] set to
    [false]; so do [handleSelectChat], when it switches, and
    [handleCreateNewChat], when an access token is stored.  (Nothing is said
    of a request that is never answered, nor of what is shown after a reload
    or a navigation that the run has asked for.) *)
Theorem loading_off_on_completion jwtDecode env w :
  loading (final (run env (initialize jwtDecode w))) = false
  ∧ (truthy (localStorage w !! "token") = true →
     (∀ selected, chatId w ≠ Some selected →
        loading (final (run env (handleSelectChat selected w))) = false)
     ∧ loading (final (run env (handleCreateNewChat w))) = false).
Proof.
  split.
  - apply (ends_run (λ w', loading w' = false)).
    unfold initialize. apply ends_then_setLoading_false.
    apply never_throws_try_catch. intros e. safe. apply never_throws_clearTokens.
  - intros Htok. split.
    + intros selected Hother.
      apply (ends_run (λ w', loading w' = false)).
      unfold handleSelectChat, TokenManager.getAccessToken.
      unfold mbind at 1 2, task_bind, bind, getItem, read. cbn [bindA].
      rewrite Htok. rewrite bool_decide_eq_false_2; [|by intros Heq; apply Hother].
      cbn [andb negb].
      apply ends_bindA; [done|]. intros _ w1.
      apply ends_bindA; [done|]. intros _ w2.
      apply ends_bindA; [done|]. intros _ w3.
      apply ends_bindA; [apply never_throws_fetchChatHistory|]. by intros _ w4.
    + apply (ends_run (λ w', loading w' = false)).
      unfold handleCreateNewChat, TokenManager.getAccessToken.
      unfold mbind at 1, task_bind, bind, getItem, read. cbn [bindA].
      rewrite Htok.
      apply ends_bindA; [done|]. intros _ w1.
      apply ends_bindA; [done|]. intros _ w2.
      apply ends_bindA; [apply never_throws_getActiveChatId|]. intros newChatId w3.
      apply ends_bindA; [|by intros _ w4].
      apply never_throws_if.
      * safe. apply never_throws_fetchChatSessions.
      * apply never_throws_ret.
Qed.
